(** * 3d-character-with-controls: the locomotion controller of [src/main.ts]

    A shallow embedding of the module-level state of [main.ts], of its two
    input handlers ([startWalking], [stopWalking]), of the keyboard and touch
    listeners and of the render callback [animate], followed by the
    properties the specification states about them.

    JavaScript numbers are IEEE 754 binary64 values; they are modelled by
    Rocq's primitive floats, whose operations are the same ones. *)

From Stdlib Require Import Bool List String Ascii PeanoNat.
From Stdlib Require Import Floats.PrimFloat.
Import ListNotations.

Set Warnings "-inexact-float".
Local Open Scope float_scope.

(** ** Numbers *)

(** [Math.PI] *)
Definition Math_PI : float := 3.141592653589793.

(** JavaScript's [ToBoolean] on a number: [0], [-0] and [NaN] are falsy. *)
Definition number_truthy (n : float) : bool :=
  negb (n =? 0) && (n =? n).

(** [ToBoolean] on a [number | null]. *)
Definition truthy (v : option float) : bool :=
  match v with
  | Some n => number_truthy n
  | None => false
  end.

(** [x !== null] and [!x] on a nullable object reference. *)
Definition isSome {A : Type} (o : option A) : bool :=
  match o with Some _ => true | None => false end.

(** ** THREE.Vector3 *)

Module Vector3.
Record t : Type := mk { x : float; y : float; z : float }.

Definition add (a b : t) : t := mk (x a + x b) (y a + y b) (z a + z b).
Definition sub (a b : t) : t := mk (x a - x b) (y a - y b) (z a - z b).

Definition with_x (v : float) (a : t) : t := mk v (y a) (z a).
Definition with_y (v : float) (a : t) : t := mk (x a) v (z a).
Definition with_z (v : float) (a : t) : t := mk (x a) (y a) v.
End Vector3.

(** ** Scene objects *)

(** The part of a THREE.Object3D the script reads or writes: [rotation] is
    the Euler triple, of which only [y] is tweened. *)
Record Object3D : Type := mkObject3D {
  position : Vector3.t;
  rotation : Vector3.t;
  scale : Vector3.t
}.

Definition with_position (p : Vector3.t) (o : Object3D) : Object3D :=
  mkObject3D p (rotation o) (scale o).

Definition with_scale (s : Vector3.t) (o : Object3D) : Object3D :=
  mkObject3D (position o) (rotation o) s.

Record PerspectiveCamera : Type := mkCamera {
  object3D :> Object3D;
  aspect : float
}.

(** [cube.position.set(3, 0.5, 3)] *)
Definition cube_position : Vector3.t := Vector3.mk 3 0.5 3.

(** ** THREE.AnimationAction

    The state of an action that [play], [stop], [reset] and [crossFadeFrom]
    write: whether the mixer has it activated, its local time, the scheduled
    weight fade and the duration of the scheduled time-scale warp. *)

Record AnimationClip : Type := mkClip { clipDuration : float }.

Inductive Fade : Type :=
| FadeIn (duration : float)
| FadeOut (duration : float).

Record AnimationAction : Type := mkAction {
  clip : AnimationClip;
  active : bool;
  time : float;
  fading : option Fade;
  warping : option float
}.

(** [mixer.clipAction(clip)]: a fresh, inactive action. *)
Definition clipAction (c : AnimationClip) : AnimationAction :=
  mkAction c false 0 None None.

Module Action.
Definition play (a : AnimationAction) : AnimationAction :=
  mkAction (clip a) true (time a) (fading a) (warping a).

(** [reset]: time back to 0, fading and warping cancelled. *)
Definition reset (a : AnimationAction) : AnimationAction :=
  mkAction (clip a) (active a) 0 None None.

(** [stop]: deactivate, then [reset]. *)
Definition stop (a : AnimationAction) : AnimationAction :=
  reset (mkAction (clip a) false (time a) (fading a) (warping a)).

Definition fadeIn (d : float) (a : AnimationAction) : AnimationAction :=
  mkAction (clip a) (active a) (time a) (Some (FadeIn d)) (warping a).

Definition fadeOut (d : float) (a : AnimationAction) : AnimationAction :=
  mkAction (clip a) (active a) (time a) (Some (FadeOut d)) (warping a).

Definition warp (d : float) (a : AnimationAction) : AnimationAction :=
  mkAction (clip a) (active a) (time a) (fading a) (Some d).

(** [this.crossFadeFrom(fadeOutAction, duration, warp)] writes both
    actions; the result is [(this, fadeOutAction)]. *)
Definition crossFadeFrom (this fadeOutAction : AnimationAction)
    (duration : float) (warpFlag : bool)
  : AnimationAction * AnimationAction :=
  let out := fadeOut duration fadeOutAction in
  let this := fadeIn duration this in
  if warpFlag then (warp duration this, warp duration out)
  else (this, out).
End Action.

Record AnimationMixer : Type := mkMixer { mixerTime : float }.

(** ** gsap

    [gsap.to(foxModel.rotation, { duration, y })] is fire and forget: the
    state keeps the tweens started on the model's rotation, newest first. *)
Record Tween : Type := mkTween {
  duration : float;
  y : float
}.

(** ** The info button (a DOM element) *)

Inductive Transform : Type :=
| Translate (translateX translateY : float)
| Scale00.

Record HTMLElement : Type := mkElement {
  visible : bool;
  transform : option Transform
}.

(** ** Module-level state *)

Record Sizes : Type := mkSizes { width : float; height : float }.

(** [controls.target] is either the vector OrbitControls created or an
    alias of [foxModel.position]. *)
Inductive ControlsTarget : Type :=
| OwnTarget (v : Vector3.t)
| FoxPosition.

Record World : Type := mkWorld {
  sizes : Sizes;
  foxModel : option Object3D;
  mixer : option AnimationMixer;
  idleAnimation : option AnimationAction;
  walkAnimation : option AnimationAction;
  movingOnZ : option float;
  movingOnX : option float;
  camera : PerspectiveCamera;
  controls_target : ControlsTarget;
  infoButton1 : option HTMLElement;
  previousTime : float;
  tweens : list Tween
}.

Definition movingSpeed : float := 0.012.

Definition set_sizes (v : Sizes) (w : World) : World :=
  mkWorld v (foxModel w) (mixer w) (idleAnimation w) (walkAnimation w)
    (movingOnZ w) (movingOnX w) (camera w) (controls_target w)
    (infoButton1 w) (previousTime w) (tweens w).

Definition set_foxModel (v : option Object3D) (w : World) : World :=
  mkWorld (sizes w) v (mixer w) (idleAnimation w) (walkAnimation w)
    (movingOnZ w) (movingOnX w) (camera w) (controls_target w)
    (infoButton1 w) (previousTime w) (tweens w).

Definition set_mixer (v : option AnimationMixer) (w : World) : World :=
  mkWorld (sizes w) (foxModel w) v (idleAnimation w) (walkAnimation w)
    (movingOnZ w) (movingOnX w) (camera w) (controls_target w)
    (infoButton1 w) (previousTime w) (tweens w).

Definition set_idleAnimation (v : option AnimationAction) (w : World) : World :=
  mkWorld (sizes w) (foxModel w) (mixer w) v (walkAnimation w)
    (movingOnZ w) (movingOnX w) (camera w) (controls_target w)
    (infoButton1 w) (previousTime w) (tweens w).

Definition set_walkAnimation (v : option AnimationAction) (w : World) : World :=
  mkWorld (sizes w) (foxModel w) (mixer w) (idleAnimation w) v
    (movingOnZ w) (movingOnX w) (camera w) (controls_target w)
    (infoButton1 w) (previousTime w) (tweens w).

Definition set_movingOnZ (v : option float) (w : World) : World :=
  mkWorld (sizes w) (foxModel w) (mixer w) (idleAnimation w) (walkAnimation w)
    v (movingOnX w) (camera w) (controls_target w)
    (infoButton1 w) (previousTime w) (tweens w).

Definition set_movingOnX (v : option float) (w : World) : World :=
  mkWorld (sizes w) (foxModel w) (mixer w) (idleAnimation w) (walkAnimation w)
    (movingOnZ w) v (camera w) (controls_target w)
    (infoButton1 w) (previousTime w) (tweens w).

Definition set_camera (v : PerspectiveCamera) (w : World) : World :=
  mkWorld (sizes w) (foxModel w) (mixer w) (idleAnimation w) (walkAnimation w)
    (movingOnZ w) (movingOnX w) v (controls_target w)
    (infoButton1 w) (previousTime w) (tweens w).

Definition set_controls_target (v : ControlsTarget) (w : World) : World :=
  mkWorld (sizes w) (foxModel w) (mixer w) (idleAnimation w) (walkAnimation w)
    (movingOnZ w) (movingOnX w) (camera w) v
    (infoButton1 w) (previousTime w) (tweens w).

Definition set_infoButton1 (v : option HTMLElement) (w : World) : World :=
  mkWorld (sizes w) (foxModel w) (mixer w) (idleAnimation w) (walkAnimation w)
    (movingOnZ w) (movingOnX w) (camera w) (controls_target w)
    v (previousTime w) (tweens w).

Definition set_previousTime (v : float) (w : World) : World :=
  mkWorld (sizes w) (foxModel w) (mixer w) (idleAnimation w) (walkAnimation w)
    (movingOnZ w) (movingOnX w) (camera w) (controls_target w)
    (infoButton1 w) v (tweens w).

Definition set_tweens (v : list Tween) (w : World) : World :=
  mkWorld (sizes w) (foxModel w) (mixer w) (idleAnimation w) (walkAnimation w)
    (movingOnZ w) (movingOnX w) (camera w) (controls_target w)
    (infoButton1 w) (previousTime w) v.

(** [gsap.to(foxModel.rotation, { duration: d, y: target })] *)
Definition gsap_to (d target : float) (w : World) : World :=
  set_tweens (mkTween d target :: tweens w) w.

(** ** The locomotion controller *)

(** The four statements that end [startWalking]:
    [idleAnimation?.stop(); walkAnimation?.reset(); walkAnimation?.play();
     idleAnimation && walkAnimation?.crossFadeFrom(idleAnimation, 0.5, true)]. *)
Definition blendToWalk (w : World) : World :=
  let w := set_idleAnimation (option_map Action.stop (idleAnimation w)) w in
  let w := set_walkAnimation (option_map Action.reset (walkAnimation w)) w in
  let w := set_walkAnimation (option_map Action.play (walkAnimation w)) w in
  match idleAnimation w, walkAnimation w with
  | Some idle, Some walk =>
      let '(walk', idle') := Action.crossFadeFrom walk idle 0.5 true in
      set_walkAnimation (Some walk') (set_idleAnimation (Some idle') w)
  | _, _ => w
  end.

(** The four statements that end [stopWalking]. *)
Definition blendToIdle (w : World) : World :=
  let w := set_walkAnimation (option_map Action.stop (walkAnimation w)) w in
  let w := set_idleAnimation (option_map Action.reset (idleAnimation w)) w in
  let w := set_idleAnimation (option_map Action.play (idleAnimation w)) w in
  match walkAnimation w, idleAnimation w with
  | Some walk, Some idle =>
      let '(idle', walk') := Action.crossFadeFrom idle walk 0.5 true in
      set_idleAnimation (Some idle') (set_walkAnimation (Some walk') w)
  | _, _ => w
  end.

Definition startWalking (key : string) (w : World) : World :=
  let isMovingForward := String.eqb key "w" in
  let isMovingRight := String.eqb key "d" in
  let isMovingLeft := String.eqb key "a" in
  let isMovingBackward := String.eqb key "s" in
  if (negb isMovingBackward && negb isMovingForward
      && negb isMovingLeft && negb isMovingRight)
     || negb (isSome (foxModel w))
  then w
  else
    let w := set_movingOnZ
               (if isMovingForward then Some movingSpeed
                else if isMovingBackward then Some (- movingSpeed)
                else None) w in
    let w := set_movingOnX
               (if isMovingRight then Some (- movingSpeed)
                else if isMovingLeft then Some movingSpeed
                else None) w in
    let w :=
      if negb isMovingForward then
        let yRotation :=
          if isMovingLeft then Math_PI * 0.5
          else if isMovingRight then - Math_PI * 0.5
          else Math_PI in
        gsap_to 0.5 yRotation w
      else w in
    blendToWalk w.

Definition stopWalking (key : string) (w : World) : World :=
  let wasMovingForward := String.eqb key "w" in
  let wasMovingRight := String.eqb key "d" in
  let wasMovingLeft := String.eqb key "a" in
  let wasMovingBackward := String.eqb key "s" in
  if (negb wasMovingBackward && negb wasMovingForward
      && negb wasMovingLeft && negb wasMovingRight)
     || negb (isSome (foxModel w))
  then w
  else
    let w := set_movingOnX None w in
    let w := set_movingOnZ None w in
    let w := if negb wasMovingForward then gsap_to 0.5 0 w else w in
    blendToIdle w.

(** ** The input mapper *)

Definition arrowKeysToWASDMap : list (string * string) :=
  [ ("ArrowUp", "w"); ("ArrowDown", "s");
    ("ArrowRight", "d"); ("ArrowLeft", "a") ]%string.

(** [Object.keys(arrowKeysToWASDMap)] *)
Definition arrowKeys : list string := map fst arrowKeysToWASDMap.

(** [array.includes(key)] *)
Definition includes (l : list string) (key : string) : bool :=
  existsb (String.eqb key) l.

(** [record[key]] for a key the record lists, which is the only way the
    listeners use it (they test [arrowKeys.includes] first); for a key it
    does not list the result is [None], where JavaScript would go on to the
    properties every object inherits. *)
Fixpoint lookup (key : string) (record : list (string * string))
  : option string :=
  match record with
  | [] => None
  | (k, v) :: rest => if String.eqb key k then Some v else lookup key rest
  end.

Definition isUpper (c : ascii) : bool :=
  Nat.leb 65 (nat_of_ascii c) && Nat.leb (nat_of_ascii c) 90.

Definition ascii_toLowerCase (c : ascii) : ascii :=
  if isUpper c then ascii_of_nat (nat_of_ascii c + 32) else c.

(** What [String.prototype.toLowerCase] computes on a string of ASCII
    characters: A to Z become a to z, every other character is kept. On
    other strings the built-in also lower-cases the cased letters outside
    ASCII, which this function leaves alone; so the listeners below take the
    built-in as a parameter. *)
Fixpoint toLowerCase (s : string) : string :=
  match s with
  | EmptyString => EmptyString
  | String c rest => String (ascii_toLowerCase c) (toLowerCase rest)
  end.

(** A call with [undefined] leaves both handlers at their guard. *)
Definition callWith (handler : string -> World -> World)
    (token : option string) (w : World) : World :=
  match token with
  | Some key => handler key w
  | None => w
  end.

Section Listeners.

(** [String.prototype.toLowerCase], which the script calls and does not
    define. *)
Variable String_toLowerCase : string -> string.

(** The token both keyboard listeners compute:
    [arrowKeys.includes(event.key) ? arrowKeysToWASDMap[event.key]
                                   : event.key.toLowerCase()]. *)
Definition keyTokenBy (event_key : string) : option string :=
  if includes arrowKeys event_key
  then lookup event_key arrowKeysToWASDMap
  else Some (String_toLowerCase event_key).

Definition onKeydownBy (event_key : string) (event_repeat : bool)
    (w : World) : World :=
  if event_repeat then w
  else callWith startWalking (keyTokenBy event_key) w.

Definition onKeyupBy (event_key : string) (event_repeat : bool)
    (w : World) : World :=
  if event_repeat then w
  else callWith stopWalking (keyTokenBy event_key) w.

End Listeners.

(** The listeners with [toLowerCase] above for the built-in; these are the
    ones the event model runs. They are the script's listeners on every key
    of ASCII characters, and on every other key as well once the built-in
    sends the same keys to the four direction tokens, which is all the
    walking handlers look at. *)
Definition keyToken (event_key : string) : option string :=
  keyTokenBy toLowerCase event_key.

Definition onKeydown (event_key : string) (event_repeat : bool) (w : World)
  : World :=
  onKeydownBy toLowerCase event_key event_repeat w.

Definition onKeyup (event_key : string) (event_repeat : bool) (w : World)
  : World :=
  onKeyupBy toLowerCase event_key event_repeat w.

Definition onTouchstart (target_id : string) (w : World) : World :=
  startWalking target_id w.

Definition onTouchend (target_id : string) (w : World) : World :=
  stopWalking target_id w.

(** ** The model loader callback *)

(** What the loader hands the callback: the scene and the asset's first two
    clips, two distinct objects. *)
Record GLTF : Type := mkGLTF {
  scene : Object3D;
  animations0 : AnimationClip;
  animations1 : AnimationClip
}.

Definition onLoad (gltf : GLTF) (w : World) : World :=
  let w := set_mixer (Some (mkMixer 0)) w in
  let w := set_idleAnimation (Some (clipAction (animations0 gltf))) w in
  let w := set_walkAnimation (Some (clipAction (animations1 gltf))) w in
  let w := set_idleAnimation (option_map Action.play (idleAnimation w)) w in
  let fox := with_scale (Vector3.mk 0.025 0.025 0.025) (scene gltf) in
  (* foxModel.position.y -= 1 *)
  let fox :=
    with_position
      (Vector3.with_y (Vector3.y (position fox) - 1) (position fox)) fox in
  (* position.add(...) updates the position in place and returns it, so
     controls.target is the position object itself *)
  let fox :=
    with_position (Vector3.add (position fox) (Vector3.mk 0 1 0)) fox in
  set_controls_target FoxPosition (set_foxModel (Some fox) w).

(** ** Window resize *)

Definition onResize (innerWidth innerHeight : float) (w : World) : World :=
  let w := set_sizes (mkSizes innerWidth innerHeight) w in
  set_camera
    (mkCamera (camera w) (width (sizes w) / height (sizes w))) w.

(** ** The render callback *)

(** What the script calls in three.js and does not define itself. *)
Record Three : Type := mkThree {
  (** [v.project(camera)] *)
  project : Vector3.t -> PerspectiveCamera -> Vector3.t;
  (** [camera.lookAt(foxModel)] *)
  lookAt : PerspectiveCamera -> Object3D -> PerspectiveCamera;
  (** what [mixer.update(deltaTime)] does to one of its actions *)
  updateAction : float -> AnimationAction -> AnimationAction;
  (** [controls.update()]: reads and writes the camera and the target *)
  updateControls :
    PerspectiveCamera -> Vector3.t -> PerspectiveCamera * Vector3.t
}.

Definition showInfoButton (translateX translateY : float) (w : World)
  : World :=
  let w :=
    set_infoButton1
      (option_map (fun e => mkElement true (transform e)) (infoButton1 w)) w in
  set_infoButton1
    (option_map
       (fun e => mkElement (visible e) (Some (Translate translateX translateY)))
       (infoButton1 w)) w.

Definition hideInfoButton (w : World) : World :=
  let w :=
    set_infoButton1
      (option_map (fun e => mkElement (visible e) (Some Scale00))
         (infoButton1 w)) w in
  set_infoButton1
    (option_map (fun e => mkElement false (transform e)) (infoButton1 w)) w.

Definition moveZ (v : float) (o : Object3D) : Object3D :=
  with_position (Vector3.with_z (Vector3.z (position o) + v) (position o)) o.

Definition moveX (v : float) (o : Object3D) : Object3D :=
  with_position (Vector3.with_x (Vector3.x (position o) + v) (position o)) o.

(** Lines 234 to 237 of [animate], inside [if (foxModel)]. *)
Definition applyMovingOnZ (w : World) : World :=
  match movingOnZ w with
  | Some v =>
      if number_truthy v then
        let w := set_foxModel (option_map (moveZ v) (foxModel w)) w in
        set_camera (mkCamera (moveZ v (camera w)) (aspect (camera w))) w
      else w
  | None => w
  end.

(** Lines 238 to 241. *)
Definition applyMovingOnX (w : World) : World :=
  match movingOnX w with
  | Some v =>
      if number_truthy v then
        let w := set_foxModel (option_map (moveX v) (foxModel w)) w in
        set_camera (mkCamera (moveX v (camera w)) (aspect (camera w))) w
      else w
  | None => w
  end.

Definition applyVelocity (w : World) : World :=
  applyMovingOnX (applyMovingOnZ w).

(** The proximity test of line 225 on the model's position. *)
Definition nearCube (p : Vector3.t) : bool :=
  let difference := Vector3.sub p cube_position in
  (abs (Vector3.x difference) <? 3) && (abs (Vector3.z difference) <? 3).

Section Animate.

Variable three : Three.

Definition updateMixer (deltaTime : float) (w : World) : World :=
  match mixer w with
  | Some m =>
      let w := set_mixer (Some (mkMixer (mixerTime m + deltaTime))) w in
      let w :=
        set_idleAnimation
          (option_map (updateAction three deltaTime) (idleAnimation w)) w in
      set_walkAnimation
        (option_map (updateAction three deltaTime) (walkAnimation w)) w
  | None => w
  end.

Definition controlsUpdate (w : World) : World :=
  match controls_target w, foxModel w with
  | OwnTarget v, _ =>
      let '(cam, v') := updateControls three (camera w) v in
      set_controls_target (OwnTarget v') (set_camera cam w)
  | FoxPosition, Some fox =>
      let '(cam, p) := updateControls three (camera w) (position fox) in
      set_foxModel (Some (with_position p fox)) (set_camera cam w)
  | FoxPosition, None => w
  end.

(** The block guarded by [if (foxModel)]. *)
Definition updateModel (translateX translateY : float) (fox : Object3D)
    (w : World) : World :=
  let w :=
    if nearCube (position fox)
    then showInfoButton translateX translateY w
    else hideInfoButton w in
  let w := applyVelocity w in
  let w :=
    match foxModel w with
    | Some fox => set_camera (lookAt three (camera w) fox) w
    | None => w
    end in
  set_controls_target FoxPosition w.

(** One frame; [elapsedTime] is what [clock.getElapsedTime()] returns. *)
Definition animate (elapsedTime : float) (w : World) : World :=
  let deltaTime := elapsedTime - previousTime w in
  let w := set_previousTime elapsedTime w in
  let screenPosition := project three cube_position (camera w) in
  let translateX := Vector3.x screenPosition * width (sizes w) * 0.5 in
  let translateY := - Vector3.y screenPosition * height (sizes w) * 0.5 in
  let w :=
    match foxModel w with
    | Some fox => updateModel translateX translateY fox w
    | None => w
    end in
  let w := updateMixer deltaTime w in
  controlsUpdate w.

(** ** Events and runs *)

Inductive Event : Type :=
| Loaded (gltf : GLTF)
| Keydown (key : string) (repeat : bool)
| Keyup (key : string) (repeat : bool)
| Touchstart (id : string)
| Touchend (id : string)
| Frame (elapsedTime : float)
| Resize (innerWidth innerHeight : float).

Definition handle (w : World) (e : Event) : World :=
  match e with
  | Loaded gltf => onLoad gltf w
  | Keydown key repeat => onKeydown key repeat w
  | Keyup key repeat => onKeyup key repeat w
  | Touchstart id => onTouchstart id w
  | Touchend id => onTouchend id w
  | Frame elapsedTime => animate elapsedTime w
  | Resize innerWidth innerHeight => onResize innerWidth innerHeight w
  end.

Definition run (events : list Event) (w : World) : World :=
  fold_left handle events w.

End Animate.

(** The module-level state the top-level statements build, before the
    first call of [animate] (line 257), which is the first [Frame] of a run.
    The window size and the info button (absent when the page has none)
    come from the page. *)
Definition initial (innerWidth innerHeight : float)
    (button : option HTMLElement) : World :=
  mkWorld
    (mkSizes innerWidth innerHeight)
    None None None None None None
    (mkCamera
       (mkObject3D (Vector3.mk 0 2 (-5)) (Vector3.mk 0 0 0) (Vector3.mk 1 1 1))
       (innerWidth / innerHeight))
    (OwnTarget (Vector3.mk 0 0.75 0))
    button
    0
    [].

(** ** Vocabulary of the specification *)

(** The four canonical direction tokens. *)
Definition directions : list string := [ "w"; "a"; "s"; "d" ]%string.

(** The camera-to-character offset on the Z axis, as the script's own
    arithmetic computes a difference. *)
Definition offsetZ (w : World) (fox : Object3D) : float :=
  Vector3.z (position (camera w)) - Vector3.z (position fox).

(** ** Sample inputs *)

Definition sampleGLTF : GLTF :=
  mkGLTF
    (mkObject3D (Vector3.mk 0 0 0) (Vector3.mk 0 0 0) (Vector3.mk 1 1 1))
    (mkClip 1) (mkClip 1).

Definition sampleButton : HTMLElement := mkElement false None.

(** The page at 800 by 600 once the model has arrived. *)
Definition loadedWorld : World :=
  onLoad sampleGLTF (initial 800 600 (Some sampleButton)).

Definition loadedFox : Object3D :=
  mkObject3D (Vector3.mk 0 0 0) (Vector3.mk 0 0 0)
    (Vector3.mk 0.025 0.025 0.025).

(** A library stand-in that leaves everything where it is. *)
Definition stillThree : Three :=
  mkThree (fun v _ => v) (fun c _ => c) (fun _ a => a) (fun c t => (c, t)).

(** The parts of the state the invariants below speak about: which of the
    three nullable references are set, and the two velocity axes. *)
Definition core (w : World)
  : bool * bool * bool * option float * option float :=
  (isSome (foxModel w), isSome (idleAnimation w), isSome (walkAnimation w),
   movingOnZ w, movingOnX w).

(** The five velocity pairs the controller can write. *)
Definition velocityPair (vz vx : option float) : Prop :=
  (vz = None /\ vx = None) \/
  (vz = Some movingSpeed /\ vx = None) \/
  (vz = Some (- movingSpeed) /\ vx = None) \/
  (vz = None /\ vx = Some movingSpeed) \/
  (vz = None /\ vx = Some (- movingSpeed)).

(** Once the model is set, so are both actions: the loader callback assigns
    them before it assigns [foxModel]. *)
Definition actionsLoaded (w : World) : Prop :=
  isSome (foxModel w) = true ->
  isSome (idleAnimation w) = true /\ isSome (walkAnimation w) = true.

Definition invariant (w : World) : Prop :=
  velocityPair (movingOnZ w) (movingOnX w) /\ actionsLoaded w.

(** The token the specification says the input mapper sends for a raw
    keyboard key: the image in the fixed table for the four arrow keys, the
    lower-cased key otherwise; [lower] is the built-in. *)
Definition spec_tokenBy (lower : string -> string) (key : string) : string :=
  if String.eqb key "ArrowUp" then "w"
  else if String.eqb key "ArrowDown" then "s"
  else if String.eqb key "ArrowRight" then "d"
  else if String.eqb key "ArrowLeft" then "a"
  else lower key.


(** A string of ASCII characters. *)
Definition isAscii (s : string) : bool :=
  forallb (fun c => Nat.ltb (nat_of_ascii c) 128) (list_ascii_of_string s).

(** A string without upper-case ASCII letters. *)
Definition noUpper (s : string) : bool :=
  negb (existsb isUpper (list_ascii_of_string s)).

(** The state after the model arrived, "w" was pressed and the velocity of
    one frame was applied: the model stands at z = 0.012. *)
Definition walkingWorld : World :=
  applyVelocity (startWalking "w" loadedWorld).

Definition offsetZ_of (w : World) : option float :=
  option_map (offsetZ w) (foxModel w).

(** Everything in the state except the clock and what [mixer.update]
    writes. *)
Definition offClock (w : World) :=
  (sizes w, foxModel w, movingOnZ w, movingOnX w, camera w,
   controls_target w, infoButton1 w, tweens w).

(** ** Further vocabulary *)

(** What only the loader and the two walking handlers write: which
    references are set, the velocity, the tweens started; and whether the
    page has the info button. *)
Definition kept (w : World) :=
  (isSome (foxModel w), isSome (mixer w), isSome (idleAnimation w),
   isSome (walkAnimation w), movingOnZ w, movingOnX w, tweens w,
   isSome (infoButton1 w)).

(** The state without its record of started tweens. *)
Definition forgetTweens (w : World) : World := set_tweens [] w.

Definition isLoaded (e : Event) : bool :=
  match e with Loaded _ => true | _ => false end.

(** Key and touch events, the only callers of the walking handlers. *)
Definition isInput (e : Event) : bool :=
  match e with
  | Keydown _ _ | Keyup _ _ | Touchstart _ | Touchend _ => true
  | _ => false
  end.

(** The tweens the controller starts: half a second, to a quarter turn
    either way, a half turn, or back to 0. *)
Definition tweenOK (t : Tween) : Prop :=
  duration t = 0.5 /\
  (y t = Math_PI / 2 \/ y t = - (Math_PI / 2) \/ y t = Math_PI \/ y t = 0).

(** Of the two actions, one is activated and the other is not. *)
Definition exclusive (w : World) : Prop :=
  match idleAnimation w, walkAnimation w with
  | Some idle, Some walk => active idle = negb (active walk)
  | _, _ => True
  end.

(** The loader sets the model, the mixer and both actions together. *)
Definition loadedTogether (w : World) : Prop :=
  isSome (mixer w) = isSome (foxModel w) /\
  isSome (idleAnimation w) = isSome (foxModel w) /\
  isSome (walkAnimation w) = isSome (foxModel w).

(** The mixer and its two actions. *)
Definition anim (w : World) :=
  (mixer w, idleAnimation w, walkAnimation w).

(** What a call of a walking handler reads without writing it, or writes
    back as it found it: everything but the velocity, the tweens and the
    playback state of the two actions. *)
Definition base (w : World) :=
  (sizes w, foxModel w, mixer w,
   option_map clip (idleAnimation w), option_map clip (walkAnimation w),
   camera w, controls_target w, infoButton1 w, previousTime w).

(** ** Frame lemmas: what each step leaves alone *)

Lemma blendToWalk_moving (w : World) :
  movingOnZ (blendToWalk w) = movingOnZ w /\
  movingOnX (blendToWalk w) = movingOnX w.
Proof.
  unfold blendToWalk; simpl.
  destruct (idleAnimation w), (walkAnimation w); simpl; split; reflexivity.
Qed.

Lemma blendToIdle_moving (w : World) :
  movingOnZ (blendToIdle w) = movingOnZ w /\
  movingOnX (blendToIdle w) = movingOnX w.
Proof.
  unfold blendToIdle; simpl.
  destruct (idleAnimation w), (walkAnimation w); simpl; split; reflexivity.
Qed.

Lemma blendToWalk_rest (w : World) :
  foxModel (blendToWalk w) = foxModel w /\
  tweens (blendToWalk w) = tweens w.
Proof.
  unfold blendToWalk; simpl.
  destruct (idleAnimation w), (walkAnimation w); simpl; split; reflexivity.
Qed.

Lemma blendToIdle_rest (w : World) :
  foxModel (blendToIdle w) = foxModel w /\
  tweens (blendToIdle w) = tweens w.
Proof.
  unfold blendToIdle; simpl.
  destruct (idleAnimation w), (walkAnimation w); simpl; split; reflexivity.
Qed.

Lemma startWalking_foxModel (key : string) (w : World) :
  foxModel (startWalking key w) = foxModel w.
Proof.
  unfold startWalking.
  destruct (_ || _); [reflexivity|].
  rewrite (proj1 (blendToWalk_rest _)).
  destruct (negb _); reflexivity.
Qed.

Lemma stopWalking_foxModel (key : string) (w : World) :
  foxModel (stopWalking key w) = foxModel w.
Proof.
  unfold stopWalking.
  destruct (_ || _); [reflexivity|].
  rewrite (proj1 (blendToIdle_rest _)).
  destruct (negb _); reflexivity.
Qed.

(** A token outside the four directions fails all four comparisons. *)
Lemma not_direction (key : string) :
  ~ In key directions ->
  String.eqb key "w" = false /\ String.eqb key "d" = false /\
  String.eqb key "a" = false /\ String.eqb key "s" = false.
Proof.
  intros H; repeat split; apply String.eqb_neq; intros ->;
    apply H; simpl; auto.
Qed.

(** ** Velocity written by the controller *)

(** C1: with the model loaded, [startWalking] sets the Z velocity to +0.012
    for "w", to -0.012 for "s" and to unset for "a" and "d", and the X
    velocity to -0.012 for "d", to +0.012 for "a" and to unset for "w" and
    "s", whatever the two axes held before. *)
Theorem startWalking_sets_velocity (w : World) (fox : Object3D) :
  foxModel w = Some fox ->
  (movingOnZ (startWalking "w" w) = Some 0.012 /\
   movingOnX (startWalking "w" w) = None) /\
  (movingOnZ (startWalking "s" w) = Some (-0.012) /\
   movingOnX (startWalking "s" w) = None) /\
  (movingOnZ (startWalking "a" w) = None /\
   movingOnX (startWalking "a" w) = Some 0.012) /\
  (movingOnZ (startWalking "d" w) = None /\
   movingOnX (startWalking "d" w) = Some (-0.012)).
Proof.
  intros H.
  repeat split; unfold startWalking; rewrite H; simpl;
    first [ rewrite (proj1 (blendToWalk_moving _))
          | rewrite (proj2 (blendToWalk_moving _)) ];
    reflexivity.
Qed.

Lemma startWalking_sets_velocity_witness :
  foxModel loadedWorld = Some loadedFox /\
  movingOnZ (startWalking "s" loadedWorld) = Some (-0.012) /\
  movingOnX (startWalking "d" loadedWorld) = Some (-0.012).
Proof.
  assert (H : foxModel loadedWorld = Some loadedFox) by reflexivity.
  split; [exact H|].
  destruct (startWalking_sets_velocity loadedWorld loadedFox H)
    as [_ [[Hs _] [_ [_ Hd]]]].
  split; [exact Hs | exact Hd].
Defined.

(** C2: with the model loaded, [stopWalking] leaves both velocity axes unset
    for each of the four direction tokens and whatever the state was; so
    after "w" and then "s" were pressed, releasing "s" alone clears all
    movement. *)
Theorem stopWalking_clears_velocity (key : string) (w : World)
    (fox : Object3D) :
  foxModel w = Some fox ->
  In key directions ->
  (movingOnZ (stopWalking key w) = None /\
   movingOnX (stopWalking key w) = None) /\
  (forall held : string,
     movingOnZ (stopWalking key (startWalking key (startWalking held w)))
       = None /\
     movingOnX (stopWalking key (startWalking key (startWalking held w)))
       = None).
Proof.
  intros Hfox Hkey.
  assert (clears : forall w', foxModel w' = Some fox ->
            movingOnZ (stopWalking key w') = None /\
            movingOnX (stopWalking key w') = None).
  { intros w' H'. unfold stopWalking. rewrite H'.
    simpl in Hkey.
    destruct Hkey as [<- | [<- | [<- | [<- | []]]]]; simpl;
      rewrite (proj1 (blendToIdle_moving _)), (proj2 (blendToIdle_moving _));
      split; reflexivity. }
  split.
  - apply clears, Hfox.
  - intros held. apply clears.
    rewrite !startWalking_foxModel. exact Hfox.
Qed.

Lemma stopWalking_clears_velocity_witness :
  foxModel loadedWorld = Some loadedFox /\
  In "s"%string directions /\
  movingOnZ
    (stopWalking "s" (startWalking "s" (startWalking "w" loadedWorld)))
    = None.
Proof.
  assert (H : foxModel loadedWorld = Some loadedFox) by reflexivity.
  assert (D : In "s"%string directions) by (simpl; auto).
  split; [exact H|]. split; [exact D|].
  exact (proj1 (proj2
    (stopWalking_clears_velocity "s" loadedWorld loadedFox H D) "w"%string)).
Defined.

(** ** Guarded calls *)

(** C3: for a token that is none of "w", "a", "s", "d", and for any token
    while the model is not loaded, [startWalking] and [stopWalking] return
    the state they were given: velocity, facing tweens and animation actions
    are untouched, and both calls return normally. *)
Theorem walking_noop (key : string) (w : World) :
  ~ In key directions \/ foxModel w = None ->
  startWalking key w = w /\ stopWalking key w = w.
Proof.
  intros [Hkey | Hfox]; unfold startWalking, stopWalking.
  - destruct (not_direction key Hkey) as [-> [-> [-> ->]]].
    split; reflexivity.
  - rewrite Hfox. simpl. rewrite !orb_true_r. split; reflexivity.
Qed.

Lemma walking_noop_witness :
  (~ In "q"%string directions \/ foxModel loadedWorld = None) /\
  startWalking "q" loadedWorld = loadedWorld /\
  (~ In "w"%string directions \/ foxModel (initial 800 600 None) = None) /\
  startWalking "w" (initial 800 600 None) = initial 800 600 None.
Proof.
  assert (Hq : ~ In "q"%string directions \/ foxModel loadedWorld = None).
  { left. simpl. intros [H | [H | [H | [H | []]]]]; discriminate H. }
  assert (Hw : ~ In "w"%string directions
               \/ foxModel (initial 800 600 None) = None).
  { right. reflexivity. }
  split; [exact Hq|].
  split; [exact (proj1 (walking_noop "q" loadedWorld Hq))|].
  split; [exact Hw|].
  exact (proj1 (walking_noop "w" (initial 800 600 None) Hw)).
Defined.

(** ** What the other handlers leave alone *)

Lemma showInfoButton_core (tx ty : float) (w : World) :
  core (showInfoButton tx ty w) = core w.
Proof. reflexivity. Qed.

Lemma hideInfoButton_core (w : World) : core (hideInfoButton w) = core w.
Proof. reflexivity. Qed.

Lemma applyMovingOnZ_core (w : World) : core (applyMovingOnZ w) = core w.
Proof.
  unfold applyMovingOnZ.
  destruct (movingOnZ w) as [v|]; [destruct (number_truthy v)|];
    try reflexivity.
  unfold core; simpl. destruct (foxModel w); reflexivity.
Qed.

Lemma applyMovingOnX_core (w : World) : core (applyMovingOnX w) = core w.
Proof.
  unfold applyMovingOnX.
  destruct (movingOnX w) as [v|]; [destruct (number_truthy v)|];
    try reflexivity.
  unfold core; simpl. destruct (foxModel w); reflexivity.
Qed.

Lemma applyVelocity_core (w : World) : core (applyVelocity w) = core w.
Proof.
  unfold applyVelocity.
  rewrite applyMovingOnX_core. apply applyMovingOnZ_core.
Qed.

Lemma blendToWalk_core (w : World) : core (blendToWalk w) = core w.
Proof.
  unfold blendToWalk, core; simpl.
  destruct (idleAnimation w), (walkAnimation w); reflexivity.
Qed.

Lemma blendToIdle_core (w : World) : core (blendToIdle w) = core w.
Proof.
  unfold blendToIdle, core; simpl.
  destruct (idleAnimation w), (walkAnimation w); reflexivity.
Qed.

Lemma blendToWalk_shape (w : World) :
  isSome (foxModel (blendToWalk w)) = isSome (foxModel w) /\
  isSome (idleAnimation (blendToWalk w)) = isSome (idleAnimation w) /\
  isSome (walkAnimation (blendToWalk w)) = isSome (walkAnimation w).
Proof.
  pose proof (blendToWalk_core w) as C. unfold core in C.
  injection C as Cf Ci Cw _ _. auto.
Qed.

Lemma blendToIdle_shape (w : World) :
  isSome (foxModel (blendToIdle w)) = isSome (foxModel w) /\
  isSome (idleAnimation (blendToIdle w)) = isSome (idleAnimation w) /\
  isSome (walkAnimation (blendToIdle w)) = isSome (walkAnimation w).
Proof.
  pose proof (blendToIdle_core w) as C. unfold core in C.
  injection C as Cf Ci Cw _ _. auto.
Qed.

Lemma onResize_core (iw ih : float) (w : World) :
  core (onResize iw ih w) = core w.
Proof. reflexivity. Qed.

Section AnimateFrame.

Variable three : Three.

Lemma updateMixer_core (dt : float) (w : World) :
  core (updateMixer three dt w) = core w.
Proof.
  unfold updateMixer, core.
  destruct (mixer w); simpl; [|reflexivity].
  destruct (idleAnimation w), (walkAnimation w); reflexivity.
Qed.

Lemma controlsUpdate_core (w : World) :
  core (controlsUpdate three w) = core w.
Proof.
  unfold controlsUpdate, core.
  destruct (controls_target w) as [v|].
  - destruct (updateControls three (camera w) v); reflexivity.
  - destruct (foxModel w) as [fox|] eqn:E; simpl; [|rewrite E; reflexivity].
    destruct (updateControls three (camera w) (position fox)).
    simpl. reflexivity.
Qed.

Lemma updateModel_core (tx ty : float) (fox : Object3D) (w : World) :
  core (updateModel three tx ty fox w) = core w.
Proof.
  unfold updateModel.
  set (w1 := if nearCube (position fox) then _ else _).
  assert (H1 : core w1 = core w).
  { subst w1. destruct (nearCube (position fox)); reflexivity. }
  rewrite <- H1, <- (applyVelocity_core w1).
  destruct (foxModel (applyVelocity w1)); reflexivity.
Qed.

Lemma animate_core (t : float) (w : World) :
  core (animate three t w) = core w.
Proof.
  unfold animate.
  rewrite controlsUpdate_core, updateMixer_core.
  simpl. destruct (foxModel w); [|reflexivity].
  rewrite updateModel_core. reflexivity.
Qed.

End AnimateFrame.

(** ** Invariants of the reachable states *)

Lemma invariant_core (w w' : World) :
  core w' = core w -> invariant w -> invariant w'.
Proof.
  unfold core, invariant, actionsLoaded.
  intros H; injection H as -> -> -> -> ->. exact (fun I => I).
Qed.

Lemma startWalking_invariant (key : string) (w : World) :
  invariant w -> invariant (startWalking key w).
Proof.
  intros [V A]. split.
  - unfold startWalking.
    destruct (String.eqb_spec key "w") as [-> | Hw];
      [| destruct (String.eqb_spec key "d") as [-> | Hd];
         [| destruct (String.eqb_spec key "a") as [-> | Ha];
            [| destruct (String.eqb_spec key "s") as [-> | Hs]]]];
      simpl; destruct (isSome (foxModel w)); simpl; try exact V;
      rewrite (proj1 (blendToWalk_moving _)), (proj2 (blendToWalk_moving _));
      simpl; unfold velocityPair; tauto.
  - unfold actionsLoaded. unfold startWalking.
    destruct (_ || _); [exact A|].
    rewrite (proj1 (blendToWalk_shape _)),
      (proj1 (proj2 (blendToWalk_shape _))),
      (proj2 (proj2 (blendToWalk_shape _))).
    destruct (negb _); exact A.
Qed.

Lemma stopWalking_invariant (key : string) (w : World) :
  invariant w -> invariant (stopWalking key w).
Proof.
  intros [V A]. unfold stopWalking.
  destruct (_ || _); [split; assumption|].
  split.
  - rewrite (proj1 (blendToIdle_moving _)), (proj2 (blendToIdle_moving _)).
    left. destruct (negb _); split; reflexivity.
  - unfold actionsLoaded.
    rewrite (proj1 (blendToIdle_shape _)),
      (proj1 (proj2 (blendToIdle_shape _))),
      (proj2 (proj2 (blendToIdle_shape _))).
    destruct (negb _); exact A.
Qed.

Lemma onLoad_invariant (gltf : GLTF) (w : World) :
  invariant w -> invariant (onLoad gltf w).
Proof.
  intros [V _]. split; [exact V|].
  intros _. split; reflexivity.
Qed.

Lemma handle_invariant (three : Three) (w : World) (e : Event) :
  invariant w -> invariant (handle three w e).
Proof.
  intros I. destruct e as [gltf|key r|key r|id|id|t|iw ih]; simpl.
  - apply onLoad_invariant, I.
  - unfold onKeydown, onKeydownBy; fold (keyToken key). destruct r; [exact I|].
    destruct (keyToken key); [apply startWalking_invariant|]; exact I.
  - unfold onKeyup, onKeyupBy; fold (keyToken key). destruct r; [exact I|].
    destruct (keyToken key); [apply stopWalking_invariant|]; exact I.
  - apply startWalking_invariant, I.
  - apply stopWalking_invariant, I.
  - apply (invariant_core w); [apply animate_core | exact I].
  - apply (invariant_core w); [apply onResize_core | exact I].
Qed.

Lemma run_invariant (three : Three) (events : list Event) (w : World) :
  invariant w -> invariant (run three events w).
Proof.
  unfold run. revert w.
  induction events as [|e events IH]; intros w I; simpl.
  - exact I.
  - apply IH, handle_invariant, I.
Qed.

Lemma initial_invariant (iw ih : float) (button : option HTMLElement) :
  invariant (initial iw ih button).
Proof.
  split.
  - left. split; reflexivity.
  - intros H. discriminate H.
Qed.

Lemma reachable_invariant (three : Three) (iw ih : float)
    (button : option HTMLElement) (events : list Event) :
  invariant (run three events (initial iw ih button)).
Proof. apply run_invariant, initial_invariant. Qed.

(** C4: in every state reached from the script's initial state by any
    sequence of events (so by any sequence of [startWalking] and
    [stopWalking] calls, whatever their tokens), at least one of the two
    velocity axes is unset, hence the two never carry a nonzero value
    together. *)
Theorem one_axis_at_a_time (three : Three) (iw ih : float)
    (button : option HTMLElement) (events : list Event) :
  let w := run three events (initial iw ih button) in
  (movingOnZ w = None \/ movingOnX w = None) /\
  truthy (movingOnZ w) && truthy (movingOnX w) = false.
Proof.
  intros w.
  destruct (reachable_invariant three iw ih button events) as [V _].
  fold w in V. unfold velocityPair in V.
  destruct V as [[-> ->] | [[-> ->] | [[-> ->] | [[-> ->] | [-> ->]]]]];
    split; auto.
Qed.



(** ** Facing *)

(** C5: with the model loaded, [startWalking] starts a 0.5 second tween of
    the model's yaw to pi/2 for "a", to -pi/2 for "d" and to pi for "s", and
    none for "w"; [stopWalking] starts a 0.5 second tween back to 0 for "a",
    "s" and "d", and none for "w". *)
Theorem facing_tweens (w : World) (fox : Object3D) :
  foxModel w = Some fox ->
  tweens (startWalking "a" w) = mkTween 0.5 (Math_PI / 2) :: tweens w /\
  tweens (startWalking "d" w) = mkTween 0.5 (- (Math_PI / 2)) :: tweens w /\
  tweens (startWalking "s" w) = mkTween 0.5 Math_PI :: tweens w /\
  tweens (startWalking "w" w) = tweens w /\
  tweens (stopWalking "a" w) = mkTween 0.5 0 :: tweens w /\
  tweens (stopWalking "d" w) = mkTween 0.5 0 :: tweens w /\
  tweens (stopWalking "s" w) = mkTween 0.5 0 :: tweens w /\
  tweens (stopWalking "w" w) = tweens w.
Proof.
  intros H.
  repeat split; unfold startWalking, stopWalking; rewrite H; simpl;
    first [ rewrite (proj2 (blendToWalk_rest _))
          | rewrite (proj2 (blendToIdle_rest _)) ];
    reflexivity.
Qed.

Lemma facing_tweens_witness :
  foxModel loadedWorld = Some loadedFox /\
  tweens (startWalking "a" loadedWorld) = [ mkTween 0.5 (Math_PI / 2) ] /\
  tweens (stopWalking "a" loadedWorld) = [ mkTween 0.5 0 ].
Proof.
  assert (H : foxModel loadedWorld = Some loadedFox) by reflexivity.
  split; [exact H|].
  destruct (facing_tweens loadedWorld loadedFox H)
    as [Ha [_ [_ [_ [Hs _]]]]].
  split; [exact Ha | exact Hs].
Defined.

(** ** Animation blend *)

Lemma blendToWalk_actions (w : World) (idle walk : AnimationAction) :
  idleAnimation w = Some idle ->
  walkAnimation w = Some walk ->
  idleAnimation (blendToWalk w)
    = Some (mkAction (clip idle) false 0 (Some (FadeOut 0.5)) (Some 0.5)) /\
  walkAnimation (blendToWalk w)
    = Some (mkAction (clip walk) true 0 (Some (FadeIn 0.5)) (Some 0.5)).
Proof.
  intros Hi Hw. unfold blendToWalk. simpl. rewrite Hi, Hw. simpl.
  split; reflexivity.
Qed.

Lemma blendToIdle_actions (w : World) (idle walk : AnimationAction) :
  idleAnimation w = Some idle ->
  walkAnimation w = Some walk ->
  idleAnimation (blendToIdle w)
    = Some (mkAction (clip idle) true 0 (Some (FadeIn 0.5)) (Some 0.5)) /\
  walkAnimation (blendToIdle w)
    = Some (mkAction (clip walk) false 0 (Some (FadeOut 0.5)) (Some 0.5)).
Proof.
  intros Hi Hw. unfold blendToIdle. simpl. rewrite Hi, Hw. simpl.
  split; reflexivity.
Qed.

(** C6: in every reachable state with the model loaded, and for each of the
    four direction tokens, after [startWalking] the walk action is playing
    from time 0 and fading in over 0.5 seconds with time warping while the
    idle action is stopped and fading out over the same 0.5 seconds; after
    [stopWalking] the two actions have exchanged these roles. *)
Theorem animation_blend (three : Three) (iw ih : float)
    (button : option HTMLElement) (events : list Event) (key : string) :
  let w := run three events (initial iw ih button) in
  isSome (foxModel w) = true ->
  In key directions ->
  (exists idle walk,
     idleAnimation (startWalking key w) = Some idle /\
     walkAnimation (startWalking key w) = Some walk /\
     active walk = true /\ time walk = 0 /\ active idle = false /\
     fading walk = Some (FadeIn 0.5) /\ fading idle = Some (FadeOut 0.5) /\
     warping walk = Some 0.5 /\ warping idle = Some 0.5) /\
  (exists idle walk,
     idleAnimation (stopWalking key w) = Some idle /\
     walkAnimation (stopWalking key w) = Some walk /\
     active idle = true /\ time idle = 0 /\ active walk = false /\
     fading idle = Some (FadeIn 0.5) /\ fading walk = Some (FadeOut 0.5) /\
     warping idle = Some 0.5 /\ warping walk = Some 0.5).
Proof.
  intros w Hfox Hkey.
  destruct (reachable_invariant three iw ih button events) as [_ A].
  fold w in A. destruct (A Hfox) as [Hi Hw].
  destruct (idleAnimation w) as [idle|] eqn:Ei; [|discriminate Hi].
  destruct (walkAnimation w) as [walk|] eqn:Ew; [|discriminate Hw].
  split.
  - exists (mkAction (clip idle) false 0 (Some (FadeOut 0.5)) (Some 0.5)),
           (mkAction (clip walk) true 0 (Some (FadeIn 0.5)) (Some 0.5)).
    assert (B : idleAnimation (startWalking key w) = Some
                  (mkAction (clip idle) false 0 (Some (FadeOut 0.5))
                     (Some 0.5)) /\
                walkAnimation (startWalking key w) = Some
                  (mkAction (clip walk) true 0 (Some (FadeIn 0.5))
                     (Some 0.5))).
    { unfold startWalking. rewrite Hfox. simpl in Hkey.
      destruct Hkey as [<- | [<- | [<- | [<- | []]]]]; simpl;
        apply blendToWalk_actions; assumption. }
    destruct B as [-> ->]. repeat split; reflexivity.
  - exists (mkAction (clip idle) true 0 (Some (FadeIn 0.5)) (Some 0.5)),
           (mkAction (clip walk) false 0 (Some (FadeOut 0.5)) (Some 0.5)).
    assert (B : idleAnimation (stopWalking key w) = Some
                  (mkAction (clip idle) true 0 (Some (FadeIn 0.5))
                     (Some 0.5)) /\
                walkAnimation (stopWalking key w) = Some
                  (mkAction (clip walk) false 0 (Some (FadeOut 0.5))
                     (Some 0.5))).
    { unfold stopWalking. rewrite Hfox. simpl in Hkey.
      destruct Hkey as [<- | [<- | [<- | [<- | []]]]]; simpl;
        apply blendToIdle_actions; assumption. }
    destruct B as [-> ->]. repeat split; reflexivity.
Qed.

Lemma animation_blend_witness :
  isSome (foxModel (run stillThree [Loaded sampleGLTF]
                      (initial 800 600 None))) = true /\
  In "a"%string directions /\
  exists idle walk,
    idleAnimation
      (startWalking "a"
         (run stillThree [Loaded sampleGLTF] (initial 800 600 None)))
      = Some idle /\
    walkAnimation
      (startWalking "a"
         (run stillThree [Loaded sampleGLTF] (initial 800 600 None)))
      = Some walk /\
    active walk = true /\ active idle = false.
Proof.
  assert (H : isSome (foxModel (run stillThree [Loaded sampleGLTF]
                                  (initial 800 600 None))) = true)
    by reflexivity.
  assert (D : In "a"%string directions) by (simpl; auto).
  split; [exact H|]. split; [exact D|].
  destruct (animation_blend stillThree 800 600 None [Loaded sampleGLTF]
              "a" H D) as [[idle [walk [Hi [Hw [Ha [_ [Hb _]]]]]]] _].
  exists idle, walk. repeat split; assumption.
Defined.

(** ** The proximity marker *)

Section Marker.

Variable three : Three.

Lemma applyVelocity_infoButton1 (w : World) :
  infoButton1 (applyVelocity w) = infoButton1 w.
Proof.
  unfold applyVelocity, applyMovingOnX, applyMovingOnZ.
  destruct (movingOnZ w) as [vz|]; [destruct (number_truthy vz)|]; simpl;
    (destruct (movingOnX w) as [vx|]; [destruct (number_truthy vx)|]);
    reflexivity.
Qed.

Lemma updateMixer_infoButton1 (dt : float) (w : World) :
  infoButton1 (updateMixer three dt w) = infoButton1 w.
Proof. unfold updateMixer. destruct (mixer w); reflexivity. Qed.

Lemma controlsUpdate_infoButton1 (w : World) :
  infoButton1 (controlsUpdate three w) = infoButton1 w.
Proof.
  unfold controlsUpdate.
  destruct (controls_target w) as [v|].
  - destruct (updateControls three (camera w) v); reflexivity.
  - destruct (foxModel w) as [fox|]; [|reflexivity].
    destruct (updateControls three (camera w) (position fox)); reflexivity.
Qed.

Lemma animate_infoButton1 (t : float) (w : World) (fox : Object3D) :
  foxModel w = Some fox ->
  infoButton1 (animate three t w) =
    let screenPosition := project three cube_position (camera w) in
    let translateX :=
      Vector3.x screenPosition * width (sizes w) * 0.5 in
    let translateY :=
      - Vector3.y screenPosition * height (sizes w) * 0.5 in
    if nearCube (position fox)
    then option_map
           (fun _ => mkElement true (Some (Translate translateX translateY)))
           (infoButton1 w)
    else option_map (fun _ => mkElement false (Some Scale00))
           (infoButton1 w).
Proof.
  intros Hfox. unfold animate.
  rewrite controlsUpdate_infoButton1, updateMixer_infoButton1.
  simpl. rewrite Hfox. unfold updateModel. simpl.
  match goal with
  | |- infoButton1 (match foxModel ?u with _ => _ end) = _ =>
      assert (E : infoButton1 (match foxModel u with
                               | Some fox0 =>
                                   set_camera (lookAt three (camera u) fox0) u
                               | None => u
                               end) = infoButton1 u)
        by (destruct (foxModel u); reflexivity);
      rewrite E
  end.
  rewrite applyVelocity_infoButton1.
  destruct (nearCube (position fox)); simpl;
    destruct (infoButton1 w); reflexivity.
Qed.

End Marker.

(** C7: on a frame with the model loaded (and the page having the info
    button), the button ends the frame shown, translated to the projected
    screen coordinates of the cube, exactly when both |P.x - Q.x| < 3 and
    |P.z - Q.z| < 3 hold for the model position P and the cube position Q;
    otherwise it ends the frame hidden and scaled to nothing. Both tests are
    strict: a distance of exactly 3 on either axis hides it. *)
Theorem marker_proximity (three : Three) (t : float) (w : World)
    (fox : Object3D) (button : HTMLElement) :
  foxModel w = Some fox ->
  infoButton1 w = Some button ->
  let P := position fox in
  let Q := cube_position in
  let screenPosition := project three Q (camera w) in
  exists button',
    infoButton1 (animate three t w) = Some button' /\
    (visible button' = true <->
       (abs (Vector3.x P - Vector3.x Q) <? 3) = true /\
       (abs (Vector3.z P - Vector3.z Q) <? 3) = true) /\
    (visible button' = true ->
       transform button' =
         Some (Translate
                 (Vector3.x screenPosition * width (sizes w) * 0.5)
                 (- Vector3.y screenPosition * height (sizes w) * 0.5))) /\
    (visible button' = false -> transform button' = Some Scale00) /\
    (abs (Vector3.x P - Vector3.x Q) = 3
     \/ abs (Vector3.z P - Vector3.z Q) = 3 ->
     visible button' = false).
Proof.
  intros Hfox Hbutton P Q screenPosition.
  assert (E : infoButton1 (animate three t w) =
              if (abs (Vector3.x P - Vector3.x Q) <? 3)
                 && (abs (Vector3.z P - Vector3.z Q) <? 3)
              then Some (mkElement true
                     (Some (Translate
                        (Vector3.x screenPosition * width (sizes w) * 0.5)
                        (- Vector3.y screenPosition * height (sizes w) * 0.5))))
              else Some (mkElement false (Some Scale00))).
  { rewrite (animate_infoButton1 three t w fox Hfox), Hbutton.
    simpl. unfold nearCube. simpl. reflexivity. }
  destruct (abs (Vector3.x P - Vector3.x Q) <? 3) eqn:Ex;
    destruct (abs (Vector3.z P - Vector3.z Q) <? 3) eqn:Ez; simpl in E;
    eexists; (split; [exact E|]); simpl;
    repeat split; try tauto; try discriminate;
    try (intros [? ?]; discriminate); try (intros; reflexivity).
  simpl in Ex, Ez.
  intros [E3 | E3];
    [ rewrite E3 in Ex; vm_compute in Ex
    | rewrite E3 in Ez; vm_compute in Ez ];
    discriminate.
Qed.

Lemma marker_proximity_witness :
  foxModel loadedWorld = Some loadedFox /\
  infoButton1 loadedWorld = Some sampleButton /\
  exists button',
    infoButton1 (animate stillThree 0 loadedWorld) = Some button' /\
    visible button' = false.
Proof.
  assert (H : foxModel loadedWorld = Some loadedFox) by reflexivity.
  assert (B : infoButton1 loadedWorld = Some sampleButton) by reflexivity.
  split; [exact H|]. split; [exact B|].
  destruct (marker_proximity stillThree 0 loadedWorld loadedFox sampleButton
              H B) as [button' [E [_ [_ [_ Hedge]]]]].
  exists button'. split; [exact E|].
  apply Hedge. left. reflexivity.
Defined.

(** ** The input mapper *)

Lemma ascii_toLowerCase_lower (c : ascii) :
  isUpper (ascii_toLowerCase c) = false.
Proof. destruct c as [[] [] [] [] [] [] [] []]; reflexivity. Qed.

Lemma toLowerCase_noUpper (s : string) : noUpper (toLowerCase s) = true.
Proof.
  unfold noUpper. induction s as [|c s IH]; simpl.
  - reflexivity.
  - rewrite ascii_toLowerCase_lower. exact IH.
Qed.

Lemma toLowerCase_fixed (s : string) :
  noUpper s = true -> toLowerCase s = s.
Proof.
  unfold noUpper. induction s as [|c s IH]; simpl; intros H.
  - reflexivity.
  - apply negb_true_iff, orb_false_iff in H. destruct H as [Hc Hs].
    unfold ascii_toLowerCase. rewrite Hc. f_equal.
    apply IH. rewrite Hs. reflexivity.
Qed.

Lemma keyTokenBy_spec (lower : string -> string) (key : string) :
  keyTokenBy lower key = Some (spec_tokenBy lower key).
Proof.
  unfold keyTokenBy, spec_tokenBy, includes. simpl.
  destruct (String.eqb key "ArrowUp"),
           (String.eqb key "ArrowDown"),
           (String.eqb key "ArrowRight"),
           (String.eqb key "ArrowLeft"); reflexivity.
Qed.


(** The listeners the event model runs are the script's listeners as soon
    as the built-in and [toLowerCase] agree on the keys either of them sends
    to a direction token: on any other key both tokens fail the guard of the
    walking handlers. *)
Lemma listeners_adequate (lower : string -> string) :
  (forall key : string,
     In (lower key) directions \/ In (toLowerCase key) directions ->
     lower key = toLowerCase key) ->
  forall (key : string) (repeat : bool) (w : World),
    onKeydownBy lower key repeat w = onKeydown key repeat w /\
    onKeyupBy lower key repeat w = onKeyup key repeat w.
Proof.
  intros L key repeat w.
  unfold onKeydown, onKeyup, onKeydownBy, onKeyupBy, keyTokenBy.
  destruct repeat; [split; reflexivity|].
  destruct (includes arrowKeys key); [split; reflexivity|]. simpl.
  destruct (in_dec string_dec (lower key) directions) as [I1 | N1].
  { rewrite (L key (or_introl I1)). split; reflexivity. }
  destruct (in_dec string_dec (toLowerCase key) directions) as [I2 | N2].
  { rewrite (L key (or_intror I2)). split; reflexivity. }
  unfold startWalking, stopWalking.
  destruct (not_direction _ N1) as [-> [-> [-> ->]]].
  destruct (not_direction _ N2) as [-> [-> [-> ->]]].
  split; reflexivity.
Qed.

(** C9: whatever the built-in [toLowerCase] computes, for every raw key
    identifier the keyboard listeners hand the locomotion controller the
    table image for the four arrow keys (ArrowUp to "w", ArrowDown to "s",
    ArrowRight to "d", ArrowLeft to "a") and the lower-cased key for every
    other key; the token is never undefined, so no input raises an error,
    and an auto-repeat event sends nothing. Given that the built-in turns
    A to Z into a to z and keeps the other ASCII characters, "W", "A", "S"
    and "D" reach the controller as "w", "a", "s" and "d", and a key of
    ASCII characters without upper-case letter is passed through as it
    is. *)
Theorem key_mapping (lower : string -> string) :
  (keyTokenBy lower "ArrowUp" = Some "w"%string /\
   keyTokenBy lower "ArrowDown" = Some "s"%string /\
   keyTokenBy lower "ArrowRight" = Some "d"%string /\
   keyTokenBy lower "ArrowLeft" = Some "a"%string) /\
  (forall key : string,
     keyTokenBy lower key = Some (spec_tokenBy lower key)) /\
  (forall key : string,
     includes arrowKeys key = false ->
     keyTokenBy lower key = Some (lower key)) /\
  (forall (key : string) (repeat : bool) (w : World),
     onKeydownBy lower key repeat w =
       if repeat then w else startWalking (spec_tokenBy lower key) w) /\
  (forall (key : string) (repeat : bool) (w : World),
     onKeyupBy lower key repeat w =
       if repeat then w else stopWalking (spec_tokenBy lower key) w) /\
  ((forall s : string, isAscii s = true -> lower s = toLowerCase s) ->
   (keyTokenBy lower "W" = Some "w"%string /\
    keyTokenBy lower "A" = Some "a"%string /\
    keyTokenBy lower "S" = Some "s"%string /\
    keyTokenBy lower "D" = Some "d"%string) /\
   (forall key : string,
      isAscii key = true ->
      includes arrowKeys key = false ->
      keyTokenBy lower key = Some (toLowerCase key) /\
      noUpper (toLowerCase key) = true /\
      (noUpper key = true -> keyTokenBy lower key = Some key))).
Proof.
  split; [repeat split; reflexivity|].
  split; [exact (keyTokenBy_spec lower)|].
  split.
  { intros key H. unfold keyTokenBy. rewrite H. reflexivity. }
  split.
  { intros key repeat w. unfold onKeydownBy.
    rewrite keyTokenBy_spec. reflexivity. }
  split.
  { intros key repeat w. unfold onKeyupBy.
    rewrite keyTokenBy_spec. reflexivity. }
  intros L. split.
  - unfold keyTokenBy; simpl.
    rewrite (L "W"%string eq_refl), (L "A"%string eq_refl),
      (L "S"%string eq_refl), (L "D"%string eq_refl).
    repeat split; reflexivity.
  - intros key A H. unfold keyTokenBy. rewrite H, (L key A).
    split; [reflexivity|]. split; [apply toLowerCase_noUpper|].
    intros U. rewrite (toLowerCase_fixed key U). reflexivity.
Qed.

Lemma key_mapping_witness :
  includes arrowKeys "q" = false /\
  isAscii "q" = true /\
  noUpper "q" = true /\
  keyTokenBy toLowerCase "q" = Some "q"%string /\
  keyTokenBy toLowerCase "Shift" = Some "shift"%string.
Proof.
  assert (H : includes arrowKeys "q" = false) by reflexivity.
  assert (A : isAscii "q" = true) by reflexivity.
  assert (U : noUpper "q" = true) by reflexivity.
  assert (H' : includes arrowKeys "Shift" = false) by reflexivity.
  split; [exact H|]. split; [exact A|]. split; [exact U|].
  destruct (key_mapping toLowerCase) as [_ [_ [K [_ [_ L]]]]].
  split.
  - exact (proj2 (proj2 (proj2 (L (fun s _ => eq_refl)) "q"%string A H)) U).
  - exact (K "Shift"%string H').
Defined.

(** ** Movement per frame *)

Lemma applyMovingOnZ_set (w : World) (fox : Object3D) (v : float) :
  foxModel w = Some fox ->
  movingOnZ w = Some v ->
  number_truthy v = true ->
  applyMovingOnZ w =
    set_camera (mkCamera (moveZ v (camera w)) (aspect (camera w)))
      (set_foxModel (Some (moveZ v fox)) w).
Proof.
  intros Hf Hz Ht. unfold applyMovingOnZ. rewrite Hz, Ht, Hf. reflexivity.
Qed.

Lemma applyMovingOnX_set (w : World) (fox : Object3D) (v : float) :
  foxModel w = Some fox ->
  movingOnX w = Some v ->
  number_truthy v = true ->
  applyMovingOnX w =
    set_camera (mkCamera (moveX v (camera w)) (aspect (camera w)))
      (set_foxModel (Some (moveX v fox)) w).
Proof.
  intros Hf Hx Ht. unfold applyMovingOnX. rewrite Hx, Ht, Hf. reflexivity.
Qed.

Lemma applyMovingOnZ_unset (w : World) :
  movingOnZ w = None -> applyMovingOnZ w = w.
Proof. intros Hz. unfold applyMovingOnZ. rewrite Hz. reflexivity. Qed.

Lemma applyMovingOnX_unset (w : World) :
  movingOnX w = None -> applyMovingOnX w = w.
Proof. intros Hx. unfold applyMovingOnX. rewrite Hx. reflexivity. Qed.

Ltac agree H :=
  unfold offClock in H; injection H as Hs Hf Hz Hx Hc Ht Hb Hw.

Lemma applyVelocity_agree (w1 w2 : World) :
  offClock w1 = offClock w2 ->
  offClock (applyVelocity w1) = offClock (applyVelocity w2).
Proof.
  intros H. agree H.
  unfold applyVelocity, applyMovingOnX, applyMovingOnZ.
  rewrite Hz. destruct (movingOnZ w2) as [vz|] eqn:Ez;
    [destruct (number_truthy vz)|]; simpl;
    rewrite Hx; (destruct (movingOnX w2) as [vx|] eqn:Ex;
    [destruct (number_truthy vx)|]); unfold offClock; simpl; congruence.
Qed.

Section FrameClock.

Variable three : Three.

Lemma updateMixer_offClock (dt : float) (w : World) :
  offClock (updateMixer three dt w) = offClock w.
Proof. unfold updateMixer. destruct (mixer w); reflexivity. Qed.

Lemma controlsUpdate_agree (w1 w2 : World) :
  offClock w1 = offClock w2 ->
  offClock (controlsUpdate three w1) = offClock (controlsUpdate three w2).
Proof.
  intros H. agree H. unfold controlsUpdate. rewrite Ht, Hf, Hc.
  destruct (controls_target w2) as [v|] eqn:Et.
  - destruct (updateControls three (camera w2) v).
    unfold offClock; simpl; congruence.
  - destruct (foxModel w2) as [fox|] eqn:Ef.
    + destruct (updateControls three (camera w2) (position fox)).
      unfold offClock; simpl; congruence.
    + unfold offClock; congruence.
Qed.

Lemma updateModel_agree (tx ty : float) (fox : Object3D) (w1 w2 : World) :
  offClock w1 = offClock w2 ->
  offClock (updateModel three tx ty fox w1)
  = offClock (updateModel three tx ty fox w2).
Proof.
  intros H. unfold updateModel.
  set (u1 := if nearCube (position fox) then _ else _).
  set (u2 := if nearCube (position fox) then _ else _).
  assert (U : offClock u1 = offClock u2).
  { subst u1 u2. agree H.
    destruct (nearCube (position fox)); unfold offClock; simpl;
      congruence. }
  apply applyVelocity_agree in U. clearbody u1 u2.
  agree U. rewrite Hf, Hc.
  destruct (foxModel (applyVelocity u2)) eqn:Ef; unfold offClock; simpl;
    congruence.
Qed.

(** Apart from the clock, the mixer and the two actions, a frame does the
    same whatever the elapsed time is. *)
Lemma animate_offClock (t1 t2 : float) (w : World) :
  offClock (animate three t1 w) = offClock (animate three t2 w).
Proof.
  unfold animate. apply controlsUpdate_agree.
  rewrite !updateMixer_offClock. simpl.
  destruct (foxModel w); [|reflexivity].
  apply updateModel_agree. reflexivity.
Qed.

End FrameClock.

(** C8, the claim as stated, at the state [walkingWorld] (model at
    z = 0.012, camera at z = -4.9880000000000004, Z velocity 0.012): the
    frame moves the camera to z = -4.9760000000000009, which is not a change
    by 0.012, and the camera-to-character offset goes from -5 to
    -5.0000000000000009. *)
Lemma offset_not_preserved :
  movingOnZ walkingWorld = Some 0.012 /\
  offsetZ_of walkingWorld = Some (-5) /\
  offsetZ_of (applyVelocity walkingWorld) = Some (-5.0000000000000009) /\
  offsetZ_of (applyVelocity walkingWorld) <> offsetZ_of walkingWorld /\
  Vector3.z (position (camera (applyVelocity walkingWorld)))
  - Vector3.z (position (camera walkingWorld)) <> 0.012.
Proof.
  split; [reflexivity|].
  split; [reflexivity|].
  split; [reflexivity|].
  split.
  - intros H.
    assert (E : match offsetZ_of (applyVelocity walkingWorld) with
                | Some o => o =? -5
                | None => true
                end = true) by (rewrite H; reflexivity).
    vm_compute in E. discriminate E.
  - intros H.
    assert (E : (Vector3.z (position (camera (applyVelocity walkingWorld)))
                 - Vector3.z (position (camera walkingWorld)) =? 0.012)
                = true) by (rewrite H; reflexivity).
    vm_compute in E. discriminate E.
Qed.

(** C8, amended: in every reachable state with the model loaded, the
    velocity step of the frame (lines 234 to 241) replaces the model's and
    the camera's coordinate on an axis whose velocity is set by the
    floating-point sum of that coordinate and the velocity, which is +0.012
    or -0.012, the same addend for both; it changes neither coordinate on an
    axis whose velocity is unset; and the model and the camera a frame
    leaves behind do not depend on the frame's elapsed time. *)
Theorem frame_movement (three : Three) (iw ih : float)
    (button : option HTMLElement) (events : list Event) (fox : Object3D) :
  let w := run three events (initial iw ih button) in
  foxModel w = Some fox ->
  exists fox',
    foxModel (applyVelocity w) = Some fox' /\
    let cam := position (camera w) in
    let cam' := position (camera (applyVelocity w)) in
    (forall v, movingOnZ w = Some v ->
       (v = 0.012 \/ v = -0.012) /\
       Vector3.z (position fox') = Vector3.z (position fox) + v /\
       Vector3.z cam' = Vector3.z cam + v) /\
    (movingOnZ w = None ->
       Vector3.z (position fox') = Vector3.z (position fox) /\
       Vector3.z cam' = Vector3.z cam) /\
    (forall v, movingOnX w = Some v ->
       (v = 0.012 \/ v = -0.012) /\
       Vector3.x (position fox') = Vector3.x (position fox) + v /\
       Vector3.x cam' = Vector3.x cam + v) /\
    (movingOnX w = None ->
       Vector3.x (position fox') = Vector3.x (position fox) /\
       Vector3.x cam' = Vector3.x cam) /\
    (forall t1 t2 : float,
       foxModel (animate three t1 w) = foxModel (animate three t2 w) /\
       camera (animate three t1 w) = camera (animate three t2 w)).
Proof.
  intros w Hfox.
  assert (T : forall t1 t2 : float,
            foxModel (animate three t1 w) = foxModel (animate three t2 w) /\
            camera (animate three t1 w) = camera (animate three t2 w)).
  { intros t1 t2. pose proof (animate_offClock three t1 t2 w) as H.
    agree H. split; assumption. }
  destruct (reachable_invariant three iw ih button events) as [V _].
  fold w in V. clearbody w. unfold velocityPair in V.
  destruct V as [[Ez Ex] | [[Ez Ex] | [[Ez Ex] | [[Ez Ex] | [Ez Ex]]]]];
    unfold applyVelocity;
    [ rewrite (applyMovingOnZ_unset w Ez), (applyMovingOnX_unset w Ex);
      exists fox
    | rewrite (applyMovingOnZ_set w fox _ Hfox Ez eq_refl),
        applyMovingOnX_unset by exact Ex;
      exists (moveZ movingSpeed fox)
    | rewrite (applyMovingOnZ_set w fox _ Hfox Ez eq_refl),
        applyMovingOnX_unset by exact Ex;
      exists (moveZ (- movingSpeed) fox)
    | rewrite (applyMovingOnZ_unset w Ez),
        (applyMovingOnX_set w fox _ Hfox Ex eq_refl);
      exists (moveX movingSpeed fox)
    | rewrite (applyMovingOnZ_unset w Ez),
        (applyMovingOnX_set w fox _ Hfox Ex eq_refl);
      exists (moveX (- movingSpeed) fox) ];
    rewrite Ez, Ex; simpl;
    repeat match goal with |- _ /\ _ => split end;
    first [ reflexivity
          | assumption
          | exact T
          | discriminate
          | intros _; split; reflexivity
          | intros v E; injection E as <-; repeat split; auto ].
Qed.

Lemma frame_movement_witness :
  foxModel
    (run stillThree [Loaded sampleGLTF; Keydown "w" false]
       (initial 800 600 None)) = Some loadedFox /\
  exists fox',
    foxModel
      (applyVelocity
         (run stillThree [Loaded sampleGLTF; Keydown "w" false]
            (initial 800 600 None))) = Some fox' /\
    Vector3.z (position fox') = Vector3.z (position loadedFox) + 0.012.
Proof.
  assert (H : foxModel
                (run stillThree [Loaded sampleGLTF; Keydown "w" false]
                   (initial 800 600 None)) = Some loadedFox)
    by reflexivity.
  split; [exact H|].
  destruct (frame_movement stillThree 800 600 None
              [Loaded sampleGLTF; Keydown "w" false] loadedFox H)
    as [fox' [E [Hz _]]].
  exists fox'. split; [exact E|].
  exact (proj1 (proj2 (Hz 0.012 eq_refl))).
Defined.

(** * Further properties of the script *)

(** ** The key table *)

Lemma includes_In (l : list string) (key : string) :
  includes l key = true <-> In key l.
Proof.
  unfold includes. rewrite existsb_exists. split.
  - intros [k [Hin Heq]]. apply String.eqb_eq in Heq. subst. exact Hin.
  - intros Hin. exists key. split; [exact Hin | apply String.eqb_refl].
Qed.





Lemma ascii_toLowerCase_ascii (c : ascii) :
  Nat.ltb (nat_of_ascii c) 128 = true ->
  Nat.ltb (nat_of_ascii (ascii_toLowerCase c)) 128 = true.
Proof.
  destruct c as [[] [] [] [] [] [] [] []]; vm_compute; intros H;
    first [exact H | reflexivity].
Qed.

Lemma toLowerCase_isAscii (s : string) :
  isAscii s = true -> isAscii (toLowerCase s) = true.
Proof.
  unfold isAscii. induction s as [|c s IH]; simpl; intros H.
  - reflexivity.
  - apply andb_true_iff in H. destruct H as [Hc Hs].
    rewrite (ascii_toLowerCase_ascii c Hc). exact (IH Hs).
Qed.

(** On keys of ASCII characters, where the built-in [toLowerCase] turns
    A to Z into a to z and keeps the rest, mapping a key twice is mapping
    it once: the token of such a key is a key that maps to itself, because
    no arrow key name survives lower-casing. *)
Theorem keyToken_idempotent (lower : string -> string)
    (key token : string) :
  (forall s : string, isAscii s = true -> lower s = toLowerCase s) ->
  isAscii key = true ->
  keyTokenBy lower key = Some token ->
  keyTokenBy lower token = Some token.
Proof.
  intros L A. rewrite keyTokenBy_spec. intros H. injection H as <-.
  unfold spec_tokenBy.
  assert (D : forall d : string,
            In d directions -> keyTokenBy lower d = Some d).
  { intros d Hd. simpl in Hd.
    destruct Hd as [<- | [<- | [<- | [<- | []]]]];
      unfold keyTokenBy; simpl; rewrite L by reflexivity; reflexivity. }
  destruct (String.eqb key "ArrowUp"); [apply D; simpl; auto|].
  destruct (String.eqb key "ArrowDown"); [apply D; simpl; auto|].
  destruct (String.eqb key "ArrowRight"); [apply D; simpl; auto|].
  destruct (String.eqb key "ArrowLeft"); [apply D; simpl; auto|].
  rewrite (L key A).
  pose proof (toLowerCase_noUpper key) as U.
  pose proof (toLowerCase_isAscii key A) as A'.
  unfold keyTokenBy.
  destruct (includes arrowKeys (toLowerCase key)) eqn:I.
  - apply includes_In in I. simpl in I.
    destruct I as [E | [E | [E | [E | []]]]]; rewrite <- E in U;
      discriminate U.
  - rewrite (L _ A'), (toLowerCase_fixed _ U). reflexivity.
Qed.

Lemma keyToken_idempotent_witness :
  keyTokenBy toLowerCase "Shift" = Some "shift"%string /\
  keyTokenBy toLowerCase "shift" = Some "shift"%string.
Proof.
  assert (H : keyTokenBy toLowerCase "Shift" = Some "shift"%string)
    by reflexivity.
  split; [exact H|].
  exact (keyToken_idempotent toLowerCase "Shift" "shift"
           (fun s _ => eq_refl) eq_refl H).
Defined.

(** ** Touch buttons *)

(** The touch listeners pass the element id as it is: an id that is one of
    the four direction tokens acts like the key of that name, and any other
    id, an arrow key name or an upper-case letter included, does nothing. *)
Theorem touch_tokens (id : string) (w : World) :
  (In id directions ->
   onTouchstart id w = onKeydown id false w /\
   onTouchend id w = onKeyup id false w) /\
  (~ In id directions ->
   onTouchstart id w = w /\ onTouchend id w = w).
Proof.
  split.
  - intros H. simpl in H.
    destruct H as [<- | [<- | [<- | [<- | []]]]]; split; reflexivity.
  - intros H. unfold onTouchstart, onTouchend, startWalking, stopWalking.
    destruct (not_direction id H) as [-> [-> [-> ->]]].
    split; reflexivity.
Qed.

Lemma touch_tokens_witness :
  In "a"%string directions /\
  onTouchstart "a" loadedWorld = onKeydown "a" false loadedWorld /\
  ~ In "ArrowUp"%string directions /\
  onTouchstart "ArrowUp" loadedWorld = loadedWorld /\
  onKeydown "ArrowUp" false loadedWorld <> loadedWorld.
Proof.
  assert (D : In "a"%string directions) by (simpl; auto).
  assert (N : ~ In "ArrowUp"%string directions).
  { simpl. intros [H | [H | [H | [H | []]]]]; discriminate H. }
  split; [exact D|].
  split; [exact (proj1 (proj1 (touch_tokens "a" loadedWorld) D))|].
  split; [exact N|].
  split; [exact (proj1 (proj2 (touch_tokens "ArrowUp" loadedWorld) N))|].
  intros H. apply (f_equal movingOnZ) in H. discriminate H.
Defined.

(** ** What frames, resizes and the loader leave alone *)

Lemma applyVelocity_kept (w : World) : kept (applyVelocity w) = kept w.
Proof.
  unfold applyVelocity, applyMovingOnX, applyMovingOnZ, kept.
  destruct (movingOnZ w) as [vz|] eqn:Ez;
    [destruct (number_truthy vz)|]; simpl;
    (destruct (movingOnX w) as [vx|] eqn:Ex;
     [destruct (number_truthy vx)|]); simpl;
    rewrite ?Ez, ?Ex; destruct (foxModel w); reflexivity.
Qed.

Lemma onResize_kept (iw ih : float) (w : World) :
  kept (onResize iw ih w) = kept w.
Proof. reflexivity. Qed.

Section FrameKept.

Variable three : Three.

Lemma updateMixer_kept (dt : float) (w : World) :
  kept (updateMixer three dt w) = kept w.
Proof.
  unfold updateMixer, kept.
  destruct (mixer w) eqn:Em; simpl; [|rewrite Em; reflexivity].
  destruct (idleAnimation w), (walkAnimation w); reflexivity.
Qed.

Lemma controlsUpdate_kept (w : World) :
  kept (controlsUpdate three w) = kept w.
Proof.
  unfold controlsUpdate, kept.
  destruct (controls_target w) as [v|].
  - destruct (updateControls three (camera w) v); reflexivity.
  - destruct (foxModel w) as [fox|] eqn:E; simpl; [|rewrite E; reflexivity].
    destruct (updateControls three (camera w) (position fox)). reflexivity.
Qed.

Lemma updateModel_kept (tx ty : float) (fox : Object3D) (w : World) :
  kept (updateModel three tx ty fox w) = kept w.
Proof.
  unfold updateModel.
  set (w1 := if nearCube (position fox) then _ else _).
  assert (H1 : kept w1 = kept w).
  { subst w1. unfold kept.
    destruct (nearCube (position fox)); simpl;
      destruct (infoButton1 w); reflexivity. }
  rewrite <- H1, <- (applyVelocity_kept w1).
  destruct (foxModel (applyVelocity w1)); reflexivity.
Qed.

Lemma animate_kept (t : float) (w : World) :
  kept (animate three t w) = kept w.
Proof.
  unfold animate.
  rewrite controlsUpdate_kept, updateMixer_kept.
  simpl. destruct (foxModel w); [|reflexivity].
  rewrite updateModel_kept. reflexivity.
Qed.

End FrameKept.

(** The render loop, a resize and the loader never write the velocity and
    never start a tween: over any run made of frames, resizes and loads
    only, both velocity axes and the list of started tweens are what they
    were, so a held key keeps moving the character until a key or touch
    event arrives. *)
Theorem velocity_only_from_input (three : Three) (events : list Event)
    (w : World) :
  forallb (fun e => negb (isInput e)) events = true ->
  movingOnZ (run three events w) = movingOnZ w /\
  movingOnX (run three events w) = movingOnX w /\
  tweens (run three events w) = tweens w.
Proof.
  unfold run. revert w.
  induction events as [|e events IH]; intros w H; simpl.
  - repeat split.
  - simpl in H. apply andb_true_iff in H. destruct H as [He H].
    destruct (IH (handle three w e) H) as [-> [-> ->]].
    destruct e as [gltf|key r|key r|id|id|t|iw ih]; try discriminate He;
      simpl.
    + repeat split.
    + pose proof (animate_kept three t w) as K. unfold kept in K.
      injection K as _ _ _ _ Kz Kx Kt _. auto.
    + repeat split.
Qed.

Lemma velocity_only_from_input_witness :
  movingOnZ
    (run stillThree [Frame 1; Resize 640 480; Frame 2]
       (startWalking "w" loadedWorld)) = Some 0.012.
Proof.
  exact (proj1 (velocity_only_from_input stillThree
                  [Frame 1; Resize 640 480; Frame 2]
                  (startWalking "w" loadedWorld) eq_refl)).
Defined.

(** ** Before the model arrives *)

Lemma unloaded_walking (key : string) (w : World) :
  foxModel w = None ->
  startWalking key w = w /\ stopWalking key w = w.
Proof.
  intros H. unfold startWalking, stopWalking. rewrite H. simpl.
  rewrite !orb_true_r. split; reflexivity.
Qed.

(** As long as the loader callback has not run (so also when loading fails
    for good), no sequence of keys, touches, frames and resizes has any
    effect on the controller: the model, the mixer and both actions stay
    null, both velocity axes stay unset, no tween is started and the info
    button is neither shown nor hidden. *)
Theorem no_load_no_motion (three : Three) (iw ih : float)
    (button : option HTMLElement) (events : list Event) :
  forallb (fun e => negb (isLoaded e)) events = true ->
  let w := run three events (initial iw ih button) in
  foxModel w = None /\ mixer w = None /\
  idleAnimation w = None /\ walkAnimation w = None /\
  movingOnZ w = None /\ movingOnX w = None /\
  tweens w = [] /\ infoButton1 w = button.
Proof.
  intros H w. subst w.
  assert (G : forall w0 : World,
            (foxModel w0 = None /\ mixer w0 = None /\
             idleAnimation w0 = None /\ walkAnimation w0 = None /\
             movingOnZ w0 = None /\ movingOnX w0 = None /\
             tweens w0 = [] /\ infoButton1 w0 = button) ->
            let w := run three events w0 in
            foxModel w = None /\ mixer w = None /\
            idleAnimation w = None /\ walkAnimation w = None /\
            movingOnZ w = None /\ movingOnX w = None /\
            tweens w = [] /\ infoButton1 w = button).
  { unfold run. induction events as [|e events IH]; intros w0 I; simpl.
    - exact I.
    - simpl in H. apply andb_true_iff in H. destruct H as [He H].
      apply (IH H). clear IH H.
      destruct I as [If [Im [Ii [Iw [Iz [Ix [It Ib]]]]]]].
      assert (S : forall key, startWalking key w0 = w0
                              /\ stopWalking key w0 = w0)
        by (intros key; apply unloaded_walking, If).
      destruct e as [gltf|key r|key r|id|id|t|jw jh]; simpl.
      + discriminate He.
      + unfold onKeydown, onKeydownBy; fold (keyToken key).
        destruct r, (keyToken key) as [k|]; simpl;
          rewrite ?(proj1 (S _)); repeat split; assumption.
      + unfold onKeyup, onKeyupBy; fold (keyToken key).
        destruct r, (keyToken key) as [k|]; simpl;
          rewrite ?(proj2 (S _)); repeat split; assumption.
      + unfold onTouchstart. rewrite (proj1 (S id)).
        repeat split; assumption.
      + unfold onTouchend. rewrite (proj2 (S id)).
        repeat split; assumption.
      + unfold animate. simpl. rewrite If.
        unfold updateMixer. simpl. rewrite Im.
        unfold controlsUpdate. simpl. rewrite If.
        destruct (controls_target w0) as [v|]; simpl.
        * destruct (updateControls three (camera w0) v). simpl.
          repeat split; assumption.
        * repeat split; assumption.
      + repeat split; assumption. }
  apply G. repeat split; reflexivity.
Qed.

Lemma no_load_no_motion_witness :
  movingOnZ
    (run stillThree [Keydown "w" false; Frame 1; Touchstart "a"]
       (initial 800 600 None)) = None.
Proof.
  exact (proj1 (proj2 (proj2 (proj2 (proj2
    (no_load_no_motion stillThree 800 600 None
       [Keydown "w" false; Frame 1; Touchstart "a"] eq_refl)))))).
Defined.

(** ** References set by the loader *)

Lemma walking_kept_refs (key : string) (w : World) :
  (isSome (foxModel (startWalking key w)) = isSome (foxModel w) /\
   isSome (mixer (startWalking key w)) = isSome (mixer w) /\
   isSome (idleAnimation (startWalking key w)) = isSome (idleAnimation w) /\
   isSome (walkAnimation (startWalking key w)) = isSome (walkAnimation w)) /\
  (isSome (foxModel (stopWalking key w)) = isSome (foxModel w) /\
   isSome (mixer (stopWalking key w)) = isSome (mixer w) /\
   isSome (idleAnimation (stopWalking key w)) = isSome (idleAnimation w) /\
   isSome (walkAnimation (stopWalking key w)) = isSome (walkAnimation w)).
Proof.
  unfold startWalking, stopWalking, blendToWalk, blendToIdle.
  split; destruct (_ || _); try (repeat split; reflexivity);
    destruct (negb _); simpl;
    destruct (idleAnimation w), (walkAnimation w); repeat split; reflexivity.
Qed.

Lemma handle_loadedTogether (three : Three) (w : World) (e : Event) :
  loadedTogether w -> loadedTogether (handle three w e).
Proof.
  unfold loadedTogether. intros I.
  destruct e as [gltf|key r|key r|id|id|t|iw ih]; simpl.
  - repeat split.
  - unfold onKeydown, onKeydownBy; fold (keyToken key).
    destruct r, (keyToken key) as [k|]; simpl;
      try exact I.
    destruct (proj1 (walking_kept_refs k w)) as [-> [-> [-> ->]]]. exact I.
  - unfold onKeyup, onKeyupBy; fold (keyToken key).
    destruct r, (keyToken key) as [k|]; simpl;
      try exact I.
    destruct (proj2 (walking_kept_refs k w)) as [-> [-> [-> ->]]]. exact I.
  - unfold onTouchstart.
    destruct (proj1 (walking_kept_refs id w)) as [-> [-> [-> ->]]]. exact I.
  - unfold onTouchend.
    destruct (proj2 (walking_kept_refs id w)) as [-> [-> [-> ->]]]. exact I.
  - pose proof (animate_kept three t w) as K. unfold kept in K.
    injection K as -> -> -> -> _ _ _ _. exact I.
  - exact I.
Qed.

(** In every reachable state the model, the mixer, the idle action and the
    walk action are either all null or all set: the loader callback is the
    only writer of the four and writes them together, so the optional
    chaining on the actions and on the mixer never skips a call once the
    model is there. *)
Theorem loaded_together (three : Three) (iw ih : float)
    (button : option HTMLElement) (events : list Event) :
  let w := run three events (initial iw ih button) in
  isSome (mixer w) = isSome (foxModel w) /\
  isSome (idleAnimation w) = isSome (foxModel w) /\
  isSome (walkAnimation w) = isSome (foxModel w).
Proof.
  intros w. subst w. unfold run.
  assert (G : forall w0, loadedTogether w0 ->
                loadedTogether (fold_left (handle three) events w0)).
  { induction events as [|e events IH]; intros w0 I; simpl.
    - exact I.
    - apply IH, handle_loadedTogether, I. }
  apply (G (initial iw ih button)). repeat split.
Qed.

(** ** Tweens *)

Lemma walking_tweens (key : string) (w : World) :
  (tweens (startWalking key w) = tweens w \/
   exists t, tweenOK t /\ tweens (startWalking key w) = t :: tweens w) /\
  (tweens (stopWalking key w) = tweens w \/
   exists t, tweenOK t /\ tweens (stopWalking key w) = t :: tweens w).
Proof.
  unfold startWalking, stopWalking.
  split; (destruct (_ || _); [left; reflexivity|]);
    first [ rewrite (proj2 (blendToWalk_rest _))
          | rewrite (proj2 (blendToIdle_rest _)) ];
    (destruct (String.eqb key "w"); simpl; [left; reflexivity|]);
    right.
  - destruct (String.eqb key "a"); [|destruct (String.eqb key "d")];
      eexists; (split; [|reflexivity]); unfold tweenOK; simpl;
      (split; [reflexivity|]).
    + left; reflexivity.
    + right; left; reflexivity.
    + right; right; left; reflexivity.
  - eexists; (split; [|reflexivity]); unfold tweenOK; simpl.
    split; [reflexivity|]. right; right; right; reflexivity.
Qed.

Lemma handle_tweens (three : Three) (w : World) (e : Event) :
  Forall tweenOK (tweens w) -> Forall tweenOK (tweens (handle three w e)).
Proof.
  intros I.
  assert (S : forall key,
            Forall tweenOK (tweens (startWalking key w)) /\
            Forall tweenOK (tweens (stopWalking key w))).
  { intros key.
    destruct (walking_tweens key w) as [[-> | [t [Ht ->]]] [-> | [u [Hu ->]]]];
      split; try exact I; constructor; assumption. }
  destruct e as [gltf|key r|key r|id|id|t|iw ih]; simpl.
  - exact I.
  - unfold onKeydown, onKeydownBy; fold (keyToken key).
    destruct r, (keyToken key) as [k|]; simpl;
      try exact I. apply S.
  - unfold onKeyup, onKeyupBy; fold (keyToken key).
    destruct r, (keyToken key) as [k|]; simpl;
      try exact I. apply S.
  - apply S.
  - apply S.
  - pose proof (animate_kept three t w) as K. unfold kept in K.
    injection K as _ _ _ _ _ _ -> _. exact I.
  - exact I.
Qed.

(** In every reachable state every tween that was started on the model's
    rotation lasts half a second and goes to pi/2, -pi/2, pi or 0: the yaw
    is never sent to any other angle. *)
Theorem tween_targets (three : Three) (iw ih : float)
    (button : option HTMLElement) (events : list Event) :
  Forall tweenOK (tweens (run three events (initial iw ih button))).
Proof.
  unfold run.
  assert (G : forall w0, Forall tweenOK (tweens w0) ->
                Forall tweenOK (tweens (fold_left (handle three) events w0))).
  { induction events as [|e events IH]; intros w0 I; simpl.
    - exact I.
    - apply IH, handle_tweens, I. }
  apply G. constructor.
Qed.

(** ** One action at a time *)

Lemma applyVelocity_anim (w : World) : anim (applyVelocity w) = anim w.
Proof.
  unfold applyVelocity, applyMovingOnX, applyMovingOnZ, anim.
  destruct (movingOnZ w) as [vz|]; [destruct (number_truthy vz)|]; simpl;
    (destruct (movingOnX w) as [vx|]; [destruct (number_truthy vx)|]);
    reflexivity.
Qed.

Lemma anim_eq (w1 w2 : World) :
  anim w1 = anim w2 ->
  mixer w1 = mixer w2 /\ idleAnimation w1 = idleAnimation w2 /\
  walkAnimation w1 = walkAnimation w2.
Proof. unfold anim. intros H. injection H as Hm Hi Hw. auto. Qed.

Section FrameAnim.

Variable three : Three.

Lemma controlsUpdate_anim (w : World) :
  anim (controlsUpdate three w) = anim w.
Proof.
  unfold controlsUpdate, anim.
  destruct (controls_target w) as [v|].
  - destruct (updateControls three (camera w) v); reflexivity.
  - destruct (foxModel w) as [fox|]; [|reflexivity].
    destruct (updateControls three (camera w) (position fox)); reflexivity.
Qed.

Lemma updateModel_anim (tx ty : float) (fox : Object3D) (w : World) :
  anim (updateModel three tx ty fox w) = anim w.
Proof.
  unfold updateModel.
  set (w1 := if nearCube (position fox) then _ else _).
  assert (H1 : anim w1 = anim w)
    by (subst w1; destruct (nearCube (position fox)); reflexivity).
  rewrite <- H1, <- (applyVelocity_anim w1).
  destruct (foxModel (applyVelocity w1)); reflexivity.
Qed.

(** Only [mixer.update] touches the actions during a frame. *)
Lemma animate_actions (t : float) (w : World) :
  let deltaTime := t - previousTime w in
  idleAnimation (animate three t w) =
    (if isSome (mixer w)
     then option_map (updateAction three deltaTime) (idleAnimation w)
     else idleAnimation w) /\
  walkAnimation (animate three t w) =
    (if isSome (mixer w)
     then option_map (updateAction three deltaTime) (walkAnimation w)
     else walkAnimation w).
Proof.
  intros deltaTime. unfold animate. fold deltaTime.
  match goal with
  | |- context [controlsUpdate three ?u] =>
      destruct (anim_eq _ _ (controlsUpdate_anim u)) as [_ [Ci Cw]];
      rewrite Ci, Cw; clear Ci Cw
  end.
  set (w1 := match foxModel (set_previousTime t w) with
             | Some fox => _
             | None => _
             end).
  assert (A : anim w1 = anim w).
  { subst w1. simpl. destruct (foxModel w); [|reflexivity].
    rewrite updateModel_anim. reflexivity. }
  apply anim_eq in A. destruct A as [Am [Ai Aw]].
  unfold updateMixer. rewrite Am.
  destruct (mixer w); simpl; rewrite ?Ai, ?Aw; split; reflexivity.
Qed.

Lemma handle_exclusive (w : World) (e : Event) :
  (forall dt a, active (updateAction three dt a) = active a) ->
  exclusive w -> exclusive (handle three w e).
Proof.
  intros L I.
  assert (S : forall key,
            exclusive (startWalking key w) /\ exclusive (stopWalking key w)).
  { intros key. unfold startWalking, stopWalking.
    split; (destruct (_ || _); [exact I|]);
      unfold blendToWalk, blendToIdle, exclusive;
      destruct (negb _); simpl;
      destruct (idleAnimation w), (walkAnimation w); simpl;
      trivial. }
  destruct e as [gltf|key r|key r|id|id|t|iw ih]; simpl.
  - reflexivity.
  - unfold onKeydown, onKeydownBy; fold (keyToken key).
    destruct r, (keyToken key) as [k|]; simpl;
      try exact I. apply S.
  - unfold onKeyup, onKeyupBy; fold (keyToken key).
    destruct r, (keyToken key) as [k|]; simpl;
      try exact I. apply S.
  - apply S.
  - apply S.
  - unfold exclusive in *.
    destruct (animate_actions t w) as [-> ->].
    destruct (isSome (mixer w)); [|exact I].
    destruct (idleAnimation w), (walkAnimation w); simpl; trivial.
    rewrite !L. exact I.
  - exact I.
Qed.

Lemma run_exclusive (events : list Event) (w : World) :
  (forall dt a, active (updateAction three dt a) = active a) ->
  exclusive w -> exclusive (run three events w).
Proof.
  intros L. unfold run. revert w.
  induction events as [|e events IH]; intros w I; simpl.
  - exact I.
  - apply IH, handle_exclusive; assumption.
Qed.

End FrameAnim.

(** Provided [mixer.update] leaves the activation of an action alone, in
    every reachable state with the model loaded exactly one of the idle and
    the walk action is activated: the loader starts idle only, and each
    accepted call of a walking handler activates one action and stops the
    other. *)
Theorem one_action_active (three : Three) (iw ih : float)
    (button : option HTMLElement) (events : list Event) :
  (forall dt a, active (updateAction three dt a) = active a) ->
  let w := run three events (initial iw ih button) in
  isSome (foxModel w) = true ->
  exists idle walk,
    idleAnimation w = Some idle /\ walkAnimation w = Some walk /\
    active idle = negb (active walk).
Proof.
  intros L w Hfox.
  assert (E : exclusive w).
  { apply run_exclusive; [exact L | exact I]. }
  destruct (reachable_invariant three iw ih button events) as [_ A].
  fold w in A. destruct (A Hfox) as [Hi Hw]. unfold exclusive in E.
  destruct (idleAnimation w) as [idle|]; [|discriminate Hi].
  destruct (walkAnimation w) as [walk|]; [|discriminate Hw].
  exists idle, walk. repeat split. exact E.
Qed.

Lemma one_action_active_witness :
  exists idle walk,
    idleAnimation
      (run stillThree [Loaded sampleGLTF; Keydown "a" false; Frame 1]
         (initial 800 600 None)) = Some idle /\
    walkAnimation
      (run stillThree [Loaded sampleGLTF; Keydown "a" false; Frame 1]
         (initial 800 600 None)) = Some walk /\
    active idle = negb (active walk).
Proof.
  apply (one_action_active stillThree 800 600 None
           [Loaded sampleGLTF; Keydown "a" false; Frame 1]).
  - intros dt a. reflexivity.
  - reflexivity.
Defined.

(** ** How calls of the walking handlers compose *)

Lemma walking_base (key : string) (w : World) :
  base (startWalking key w) = base w /\ base (stopWalking key w) = base w.
Proof.
  unfold startWalking, stopWalking, blendToWalk, blendToIdle.
  split; (destruct (_ || _); [reflexivity|]);
    destruct (negb _); unfold base; simpl;
    destruct (idleAnimation w), (walkAnimation w); reflexivity.
Qed.

Lemma accepted_from_base (key : string) (u1 u2 : World) :
  In key directions ->
  isSome (foxModel u2) = true ->
  base u1 = base u2 ->
  forgetTweens (startWalking key u1) = forgetTweens (startWalking key u2) /\
  forgetTweens (stopWalking key u1) = forgetTweens (stopWalking key u2).
Proof.
  intros Hkey Hfox Hbase.
  destruct u1 as [s1 f1 m1 i1 k1 z1 x1 c1 t1 b1 p1 tw1].
  destruct u2 as [s2 f2 m2 i2 k2 z2 x2 c2 t2 b2 p2 tw2].
  unfold base in Hbase. simpl in Hbase.
  injection Hbase as -> -> -> Hi Hk -> -> -> ->.
  assert (Si : option_map Action.stop i1 = option_map Action.stop i2 /\
               option_map Action.play (option_map Action.reset i1)
               = option_map Action.play (option_map Action.reset i2)).
  { destruct i1 as [[? ? ? ? ?]|], i2 as [[? ? ? ? ?]|];
      try discriminate Hi; [|split; reflexivity].
    simpl in Hi. injection Hi as ->. split; reflexivity. }
  assert (Sk : option_map Action.stop k1 = option_map Action.stop k2 /\
               option_map Action.play (option_map Action.reset k1)
               = option_map Action.play (option_map Action.reset k2)).
  { destruct k1 as [[? ? ? ? ?]|], k2 as [[? ? ? ? ?]|];
      try discriminate Hk; [|split; reflexivity].
    simpl in Hk. injection Hk as ->. split; reflexivity. }
  destruct Si as [Si Ri], Sk as [Sk Rk].
  simpl in Hkey.
  unfold startWalking, stopWalking, blendToWalk, blendToIdle, forgetTweens.
  destruct Hkey as [<- | [<- | [<- | [<- | []]]]]; simpl;
    rewrite Si, Ri, Sk, Rk; split;
    (destruct f2; [|discriminate Hfox]); simpl;
    destruct (option_map Action.stop i2),
             (option_map Action.play (option_map Action.reset k2)),
             (option_map Action.stop k2),
             (option_map Action.play (option_map Action.reset i2));
    reflexivity.
Qed.

(** An accepted call forgets the calls before it: after [startWalking] or
    [stopWalking] with one of the four directions, the whole state, the list
    of started tweens apart, is the one the call alone would have produced,
    whatever key was pressed or released just before. In particular
    pressing a key twice is pressing it once, and a release erases the
    press before it, of whichever key. *)
Theorem last_call_wins (key1 key2 : string) (w : World) :
  In key2 directions ->
  forgetTweens (startWalking key2 (startWalking key1 w))
    = forgetTweens (startWalking key2 w) /\
  forgetTweens (startWalking key2 (stopWalking key1 w))
    = forgetTweens (startWalking key2 w) /\
  forgetTweens (stopWalking key2 (startWalking key1 w))
    = forgetTweens (stopWalking key2 w) /\
  forgetTweens (stopWalking key2 (stopWalking key1 w))
    = forgetTweens (stopWalking key2 w).
Proof.
  intros H.
  destruct (foxModel w) as [fox|] eqn:Hfox.
  - assert (L : isSome (foxModel w) = true) by (rewrite Hfox; reflexivity).
    destruct (walking_base key1 w) as [Bstart Bstop].
    destruct (accepted_from_base key2 _ _ H L Bstart) as [E1 E3].
    destruct (accepted_from_base key2 _ _ H L Bstop) as [E2 E4].
    repeat split; assumption.
  - destruct (unloaded_walking key1 w Hfox) as [-> ->].
    repeat split; reflexivity.
Qed.

Lemma last_call_wins_witness :
  forgetTweens (stopWalking "s" (startWalking "w" loadedWorld))
    = forgetTweens (stopWalking "s" loadedWorld).
Proof.
  assert (D : In "s"%string directions) by (simpl; auto).
  exact (proj1 (proj2 (proj2 (last_call_wins "w" "s" loadedWorld D)))).
Defined.

(** ** The marker is one frame behind *)

(** With the model loaded, the info button a frame leaves behind depends
    only on the model position, the camera and the window size at the start
    of that frame, and on whether the page has the button: not on the
    velocity applied during the frame, the elapsed time, the animation state
    or what the button showed before. *)
Theorem marker_from_frame_start (three : Three) (t1 t2 : float)
    (w1 w2 : World) (fox1 fox2 : Object3D) :
  foxModel w1 = Some fox1 ->
  foxModel w2 = Some fox2 ->
  position fox1 = position fox2 ->
  camera w1 = camera w2 ->
  sizes w1 = sizes w2 ->
  isSome (infoButton1 w1) = isSome (infoButton1 w2) ->
  infoButton1 (animate three t1 w1) = infoButton1 (animate three t2 w2).
Proof.
  intros H1 H2 Hp Hc Hs Hb.
  rewrite (animate_infoButton1 three t1 w1 fox1 H1).
  rewrite (animate_infoButton1 three t2 w2 fox2 H2).
  rewrite Hp, Hc, Hs.
  destruct (infoButton1 w1), (infoButton1 w2); try discriminate Hb;
    reflexivity.
Qed.

Lemma marker_from_frame_start_witness :
  infoButton1 (animate stillThree 1 (startWalking "w" loadedWorld))
  = infoButton1 (animate stillThree 2 loadedWorld).
Proof.
  apply (marker_from_frame_start stillThree 1 2
           (startWalking "w" loadedWorld) loadedWorld loadedFox loadedFox);
    reflexivity.
Defined.

(** ** Movement stays in the floor plane *)

(** The velocity step of a frame writes only the x and z coordinates: the
    height, the rotation and the scale of the model and of the camera, and
    the camera's aspect, are never changed by it, whatever the velocity. *)
Theorem movement_is_planar (w : World) (fox : Object3D) :
  foxModel w = Some fox ->
  exists fox',
    foxModel (applyVelocity w) = Some fox' /\
    Vector3.y (position fox') = Vector3.y (position fox) /\
    rotation fox' = rotation fox /\ scale fox' = scale fox /\
    Vector3.y (position (camera (applyVelocity w)))
      = Vector3.y (position (camera w)) /\
    rotation (camera (applyVelocity w)) = rotation (camera w) /\
    scale (camera (applyVelocity w)) = scale (camera w) /\
    aspect (camera (applyVelocity w)) = aspect (camera w).
Proof.
  intros H. unfold applyVelocity, applyMovingOnX, applyMovingOnZ.
  destruct (movingOnZ w) as [vz|]; [destruct (number_truthy vz)|]; simpl;
    (destruct (movingOnX w) as [vx|]; [destruct (number_truthy vx)|]);
    simpl; rewrite H; simpl; eexists; repeat split.
Qed.

Lemma movement_is_planar_witness :
  exists fox',
    foxModel (applyVelocity (startWalking "a" loadedWorld)) = Some fox' /\
    Vector3.y (position fox') = Vector3.y (position loadedFox).
Proof.
  destruct (movement_is_planar (startWalking "a" loadedWorld) loadedFox
              eq_refl) as [fox' [E [Hy _]]].
  exists fox'. split; [exact E | exact Hy].
Defined.
